(** * blockserver: the streaming file gateway of [src/blockserver/server.py]

    A shallow embedding of the request handler [FileHandler], of the two
    authorization callbacks [check_auth] and [dummy_auth] and of the route
    table of [make_app], together with the part of the web framework's
    contract that the handler relies on (response buffering, [send_error],
    the request lifecycle).  Effects are explicit: handler methods are
    state-passing functions over the handler object and a world made of the
    local file system, the storage backend and a trace of everything the
    program did. *)

From Stdlib Require Import ZArith Lia Bool Ascii String List.
From stdpp Require Import base gmap strings list pretty.
Import ListNotations.

Local Open Scope string_scope.
Local Open Scope list_scope.
Local Open Scope Z_scope.

(** ** Values *)

(** Python [bytes]. *)
Abbreviation bytes := (list Byte.byte).

(** The exceptions that can travel through the handler. *)
Inductive exn : Type :=
| KeyError (key : string)
| AttributeError (attr : string)
| TypeError
| ValueError
| RuntimeError
| FileNotFoundError (path : string)
| HTTPError (status : Z)
| BackendError (what : string).

(** The result of running a piece of Python: a value or a raised exception. *)
Inductive Outcome (A : Type) : Type :=
| Ok (a : A)
| Raise (e : exn).
Arguments Ok {A} a.
Arguments Raise {A} e.

(** Python's [==] between an optional string (a header that may be [None])
    and a string. *)
Definition opt_eqb (a : option string) (b : string) : bool :=
  match a with
  | Some s => String.eqb s b
  | None => false
  end.

(** ** Command line options ([define(...)], lines 14-25) *)

Record Options : Type := {
  opt_debug : bool;
  opt_dummy : bool;
  opt_transfers : nat;
  opt_noauth : bool;
  opt_dummy_auth : bool;
  opt_magicauth : string;
  opt_accountingserver : string
}.

Definition default_options : Options :=
  {| opt_debug := false;
     opt_dummy := false;
     opt_transfers := 10;
     opt_noauth := false;
     opt_dummy_auth := false;
     opt_magicauth := "Token MAGICFARYDUST";
     opt_accountingserver := "http://localhost:8000" |}.

(** ** The outbound HTTP client

    [AsyncHTTPClient.fetch] is framework code.  What [check_auth] relies on is
    its contract: the request is sent; with [raise_error=True] a status
    outside 2xx, or a failure to reach the server, raises [HTTPError]; with
    [raise_error=False] every outcome is delivered as a response object, a
    failure to reach the server as the pseudo status 599. *)

Record HTTPRequest : Type := {
  url : string;
  http_method : string;
  http_headers : list (string * option string);
  http_body : option bytes
}.

Record HTTPResponse : Type := { code : Z }.

(** What the remote end does with a request. *)
Inductive NetResult : Type :=
| Replied (status : Z)
| Unreachable.

(** A computation that talks to the network: its outcome and the requests it
    sent, in order. *)
Definition Client (A : Type) : Type := (Outcome A * list HTTPRequest)%type.

Definition fetch (net : HTTPRequest -> NetResult) (request : HTTPRequest)
    (raise_error : bool) : Client HTTPResponse :=
  let status := match net request with
                | Replied s => s
                | Unreachable => 599
                end in
  if raise_error && negb ((200 <=? status) && (status <? 300))
  then (Raise (HTTPError status), [request])
  else (Ok {| code := status |}, [request]).

(** ** Authorization callbacks (lines 28-43) *)

Definition AuthCallback : Type :=
  option string -> string -> string -> string -> Client bool.

Section Auth.
Variable options : Options.
Variable net : HTTPRequest -> NetResult.

(** [dummy_auth], line 42. *)
Definition dummy_auth : AuthCallback :=
  fun auth prefix file_path action =>
    (Ok (opt_eqb auth (opt_magicauth options) && String.eqb prefix "test"), []).

(** The request that [check_auth] builds at lines 34-38. *)
Definition auth_request (auth : option string) (prefix file_path action : string)
    : HTTPRequest :=
  {| url := opt_accountingserver options +:+ "/api/v0/auth/" +:+ prefix
            +:+ "/" +:+ file_path;
     http_method := action;
     http_headers := [("Authorization", auth)];
     http_body := if String.eqb action "POST" then Some [] else None |}.

(** [check_auth], line 28. *)
Definition check_auth : AuthCallback :=
  fun auth prefix file_path action =>
    if opt_noauth options then (Ok true, [])
    else if opt_dummy_auth options
    then dummy_auth auth prefix file_path action
    else
      match fetch net (auth_request auth prefix file_path action) false with
      | (Ok response, sent) => (Ok (code response =? 204), sent)
      | (Raise e, sent) => (Raise e, sent)
      end.

(** The callback [main] installs, line 135. *)
Definition main_auth_callback : AuthCallback :=
  if opt_dummy options then dummy_auth else check_auth.
End Auth.

(** ** The storage backend interface ([blockserver.backends.util]) *)

(** Modelled from the spec: the declaration of [StorageObject], which lives
    in [blockserver.backends.util].  The handler builds it positionally as
    [StorageObject(prefix, file_path, etag, local_file)]; the data model gives
    the two optional components. *)
Record StorageObject : Type := {
  so_prefix : string;
  so_file_path : string;
  so_etag : option string;
  so_local_file : option string
}.

(** Modelled from the spec: what [store] and [retrieve] hand back, of which
    the handler reads the attributes [etag] and [local_file]. *)
Record Receipt : Type := {
  etag : string;
  local_file : option string
}.

(** The local file system: path to content. *)
Abbreviation Disk := (gmap string bytes).

(** How a backend call settles: it completes with a value, or it fails with
    a signal that is opaque to the server. *)
Inductive Settled (A : Type) : Type :=
| Completed (a : A)
| Failed (what : string).
Arguments Completed {A} a.
Arguments Failed {A} what.

(** Modelled from the spec: the interface [Transfer], declared in
    [blockserver.backends.util] as well: three blocking calls,
    [store(object) -> Receipt], [retrieve(object) -> Receipt|None] and
    [delete(object) -> void], that may change the backend's own state [B] and
    the local disk. *)
Class Transfer (B : Type) : Type := {
  transfer_store : StorageObject -> B -> Disk -> Settled Receipt * B * Disk;
  transfer_retrieve : StorageObject -> B -> Disk -> Settled (option Receipt) * B * Disk;
  transfer_delete : StorageObject -> B -> Disk -> Settled unit * B * Disk
}.

(** ** The world and its trace *)

Inductive BackendOp : Type := OpStore | OpRetrieve | OpDelete.

Inductive Event : Type :=
| EvFetch (request : HTTPRequest)
| EvTempCreate (name : string)
| EvTempWrite (name : string) (chunk : bytes)
| EvTempClose (name : string)
| EvOpenRead (name : string)
| EvBackendCall (op : BackendOp) (object : StorageObject)
| EvBackendDone (op : BackendOp) (succeeded : bool)
| EvSendError (status : Z) (reason : option string)
| EvSetStatus (status : Z)
| EvSetHeader (name value : string)
| EvWrite (chunk : bytes)
| EvFinish.

Record World (B : Type) : Type := {
  disk : Disk;
  backend : B;
  trace : list Event
}.
Arguments disk {B} w.
Arguments backend {B} w.
Arguments trace {B} w.
Arguments Build_World {B} disk backend trace.

Definition emit {B} (e : Event) (w : World B) : World B :=
  {| disk := disk w; backend := backend w; trace := trace w ++ [e] |}.

Definition set_disk {B} (d : Disk) (w : World B) : World B :=
  {| disk := d; backend := backend w; trace := trace w |}.

Definition set_backend {B} (b : B) (w : World B) : World B :=
  {| disk := disk w; backend := b; trace := trace w |}.

(** ** The incoming request *)

(** Header names are in the framework's normalised spelling.  The body is
    the sequence of chunks the connection delivers; [body_complete] is false
    when the client went away after the last of them. *)
Record Request : Type := {
  method : string;
  uri : string;
  req_headers : gmap string string;
  body_chunks : list bytes;
  body_complete : bool
}.

(** ** The response under construction ([RequestHandler]'s own fields) *)

Record Response : Type := {
  status_code : Z;
  reason : option string;
  headers : gmap string string;
  write_buffer : list bytes;
  headers_written : bool;
  finished : bool
}.

Definition new_response : Response :=
  {| status_code := 200; reason := None; headers := ∅; write_buffer := [];
     headers_written := false; finished := false |}.

(** ** The upload handle ([tempfile.NamedTemporaryFile(delete=False)])

    Written bytes sit in the handle's buffer until [close] flushes them to the
    file; closing never removes the file. *)
Record TempFile : Type := {
  name : string;
  buffered : bytes;
  closed : bool
}.

(** ** The handler object *)

(** The [FileHandler] instance of one request.  [temp] is [None] while the
    attribute does not exist.  The class attribute [streamer] is only ever
    set to [None] and never read; it is left out. *)
Record Self : Type := {
  request : Request;
  path_kwargs : gmap string string;
  auth : option bool;
  auth_header : option string;
  temp : option TempFile;
  response : Response
}.

Definition set_auth (a : option bool) (h : Self) : Self :=
  {| request := request h; path_kwargs := path_kwargs h; auth := a;
     auth_header := auth_header h; temp := temp h; response := response h |}.

Definition set_auth_header (a : option string) (h : Self) : Self :=
  {| request := request h; path_kwargs := path_kwargs h; auth := auth h;
     auth_header := a; temp := temp h; response := response h |}.

Definition set_temp (t : option TempFile) (h : Self) : Self :=
  {| request := request h; path_kwargs := path_kwargs h; auth := auth h;
     auth_header := auth_header h; temp := t; response := response h |}.

Definition set_response (r : Response) (h : Self) : Self :=
  {| request := request h; path_kwargs := path_kwargs h; auth := auth h;
     auth_header := auth_header h; temp := temp h; response := r |}.

(** A handler as the framework instantiates it for one request: the class
    attribute [auth = None], no [temp] attribute, an empty response. *)
Definition new_handler (req : Request) (kwargs : gmap string string) : Self :=
  {| request := req; path_kwargs := kwargs; auth := None;
     auth_header := None; temp := None; response := new_response |}.


(** ** Handler computations: state and exceptions *)

Definition M (B A : Type) : Type :=
  Self -> World B -> Outcome A * Self * World B.

Definition ret {B A} (a : A) : M B A := fun h w => (Ok a, h, w).

Definition bind {B A C} (m : M B A) (k : A -> M B C) : M B C :=
  fun h w =>
    match m h w with
    | (Ok a, h', w') => k a h' w'
    | (Raise e, h', w') => (Raise e, h', w')
    end.

Definition raise {B A} (e : exn) : M B A := fun h w => (Raise e, h, w).

Definition modify_self {B} (f : Self -> Self) : M B unit :=
  fun h w => (Ok tt, f h, w).

Definition modify_world {B} (f : World B -> World B) : M B unit :=
  fun h w => (Ok tt, h, f w).

Definition read_self {B A} (f : Self -> A) : M B A := fun h w => (Ok (f h), h, w).

Definition read_world {B A} (f : World B -> A) : M B A := fun h w => (Ok (f w), h, w).

Declare Scope handler_scope.
Delimit Scope handler_scope with handler.
Notation "x <- m ;; k" := (bind m (fun x => k))
  (at level 100, m at next level, right associativity) : handler_scope.
Notation "m ;; k" := (bind m (fun _ => k))
  (at level 100, right associativity) : handler_scope.
Local Open Scope handler_scope.

(** A [for] loop over a list. *)
Fixpoint for_each {B A} (l : list A) (body : A -> M B unit) : M B unit :=
  match l with
  | [] => ret tt
  | x :: rest => body x ;; for_each rest body
  end.

(** ** The framework's response primitives ([tornado.web.RequestHandler])

    The contract the handler code is written against: [set_status],
    [set_header] and [write] only fill the pending response, [finish] sends
    it, and [send_error] replaces whatever is pending by an error page unless
    the response has already gone out. *)
Module RequestHandler.
Section Primitives.
Context {B : Type}.
(** The body of the framework's error page for a status and reason. *)
Variable error_page : Z -> option string -> bytes.

Definition update_response (f : Response -> Response) : M B unit :=
  modify_self (fun h => set_response (f (response h)) h).

Definition set_status (status : Z) (why : option string) : M B unit :=
  modify_world (emit (EvSetStatus status)) ;;
  update_response (fun r =>
    {| status_code := status; reason := why; headers := headers r;
       write_buffer := write_buffer r; headers_written := headers_written r;
       finished := finished r |}).

Definition set_header (key value : string) : M B unit :=
  modify_world (emit (EvSetHeader key value)) ;;
  update_response (fun r =>
    {| status_code := status_code r; reason := reason r;
       headers := <[key := value]> (headers r);
       write_buffer := write_buffer r; headers_written := headers_written r;
       finished := finished r |}).

Definition write (chunk : bytes) : M B unit :=
  done <- read_self (fun h => finished (response h)) ;;
  if (done : bool) then raise RuntimeError
  else
    modify_world (emit (EvWrite chunk)) ;;
    update_response (fun r =>
      {| status_code := status_code r; reason := reason r; headers := headers r;
         write_buffer := write_buffer r ++ [chunk];
         headers_written := headers_written r; finished := finished r |}).

Definition finish : M B unit :=
  done <- read_self (fun h => finished (response h)) ;;
  if (done : bool) then raise RuntimeError
  else
    modify_world (emit EvFinish) ;;
    update_response (fun r =>
      {| status_code := status_code r; reason := reason r; headers := headers r;
         write_buffer := write_buffer r; headers_written := true;
         finished := true |}).

Definition clear : M B unit :=
  update_response (fun r =>
    {| status_code := 200; reason := None; headers := ∅; write_buffer := [];
       headers_written := headers_written r; finished := finished r |}).

(** [send_error(status_code=500, reason=None)]. *)
Definition send_error (status : Z) (why : option string) : M B unit :=
  modify_world (emit (EvSendError status why)) ;;
  sent <- read_self (fun h => headers_written (response h)) ;;
  if (sent : bool) then
    done <- read_self (fun h => finished (response h)) ;;
    if (done : bool) then ret tt else finish
  else
    clear ;;
    set_status status why ;;
    write (error_page status why) ;;
    finish.

(** [self.request.headers.get(key, None)]. *)
Definition request_header (key : string) : M B (option string) :=
  read_self (fun h => req_headers (request h) !! key).
End Primitives.
End RequestHandler.
Import RequestHandler.

(** ** The upload handle's operations *)
Section TempFiles.
Context {B : Type}.

(** [self.temp = tempfile.NamedTemporaryFile(delete=False)]: a new, empty
    file under a name not yet in use, opened for writing. *)
Definition NamedTemporaryFile : M B unit :=
  fun h w =>
    let fname : string := fresh (dom (disk w)) in
    (Ok tt,
     set_temp (Some {| name := fname; buffered := []; closed := false |}) h,
     emit (EvTempCreate fname) (set_disk (<[fname := []]> (disk w)) w)).

(** Reading the attribute [self.temp]. *)
Definition self_temp : M B TempFile :=
  fun h w =>
    match temp h with
    | Some t => (Ok t, h, w)
    | None => (Raise (AttributeError "temp"), h, w)
    end.

(** [self.temp.write(chunk)]. *)
Definition temp_write (chunk : bytes) : M B unit :=
  t <- self_temp ;;
  if closed t then raise ValueError
  else
    modify_world (emit (EvTempWrite (name t) chunk)) ;;
    modify_self (set_temp (Some {| name := name t;
                                   buffered := buffered t ++ chunk;
                                   closed := false |})).

(** [self.temp.close()]: flush, then close; closing twice is harmless. *)
Definition temp_close : M B unit :=
  t <- self_temp ;;
  if closed t then ret tt
  else
    modify_world (fun w =>
      emit (EvTempClose (name t))
           (set_disk (alter (fun content => content ++ buffered t) (name t) (disk w)) w)) ;;
    modify_self (set_temp (Some {| name := name t; buffered := []; closed := true |})).

(** [open(path, 'rb')] followed by reading: the content, or the error of a
    missing file. *)
Definition open_rb (path : string) : M B bytes :=
  modify_world (emit (EvOpenRead path)) ;;
  content <- read_world (fun w => disk w !! path) ;;
  match content with
  | Some data => ret data
  | None => raise (FileNotFoundError path)
  end.
End TempFiles.

(** [iter(lambda: f_in.read(size), b'')]: successive reads of at most [size]
    bytes until a read comes back empty.  [fuel] bounds the number of reads;
    one more than the length of the data always suffices. *)
Fixpoint read_loop (fuel size : nat) (data : bytes) : list bytes :=
  match fuel with
  | O => []
  | S fuel' =>
      match take size data with
      | [] => []
      | chunk => chunk :: read_loop fuel' size (drop size data)
      end
  end.

Definition read_chunks (size : nat) (data : bytes) : list bytes :=
  read_loop (S (length data)) size data.

Definition CHUNK : nat := (8 * 1024)%nat.

Arguments read_chunks : simpl never.
Arguments CHUNK : simpl never.

(** ** The handler ([class FileHandler], lines 46-124) *)
Module FileHandler.
Section Methods.
Context {B : Type} {transfer : Transfer B}.
Variable auth_callback : AuthCallback.
Variable error_page : Z -> option string -> bytes.

(** Awaiting the authorization callback: the requests it sends enter the
    trace, its exception (if any) propagates. *)
Definition await_auth (auth : option string) (prefix file_path action : string)
    : M B bool :=
  fun h w =>
    let '(result, sent) := auth_callback auth prefix file_path action in
    (result, h, fold_left (fun w' r => emit (EvFetch r) w') sent w).

(** A backend call made through [run_on_executor] and awaited with
    [yield]: the coroutine resumes only once the call has returned or
    raised. *)
Definition on_executor {A} (op : BackendOp) (object : StorageObject)
    (call : StorageObject -> B -> Disk -> Settled A * B * Disk) : M B A :=
  fun h w =>
    let w1 := emit (EvBackendCall op object) w in
    let '(result, b', d') := call object (backend w1) (disk w1) in
    let w2 := set_disk d' (set_backend b' w1) in
    match result with
    | Completed a => (Ok a, h, emit (EvBackendDone op true) w2)
    | Failed what => (Raise (BackendError what), h, emit (EvBackendDone op false) w2)
    end.

(** [delete_file], line 115. *)
Definition delete_file (prefix file_path : string) : M B unit :=
  on_executor OpDelete
    {| so_prefix := prefix; so_file_path := file_path;
       so_etag := None; so_local_file := None |}
    transfer_delete.

(** [store_file], line 119. *)
Definition store_file (prefix file_path filename : string) : M B Receipt :=
  on_executor OpStore
    {| so_prefix := prefix; so_file_path := file_path;
       so_etag := None; so_local_file := Some filename |}
    transfer_store.

(** [retrieve_file], line 123. *)
Definition retrieve_file (prefix file_path : string) (etag : option string)
    : M B (option Receipt) :=
  on_executor OpRetrieve
    {| so_prefix := prefix; so_file_path := file_path;
       so_etag := etag; so_local_file := None |}
    transfer_retrieve.

(** [prepare], line 59.  The [try ... except KeyError] around the two
    dictionary reads is the first [match]. *)
Definition prepare : M B unit :=
  modify_self (set_auth None) ;;
  kwargs <- read_self path_kwargs ;;
  match kwargs !! "prefix", kwargs !! "file_path" with
  | Some prefix, Some file_path =>
      header <- request_header "Authorization" ;;
      modify_self (set_auth_header header) ;;
      action <- read_self (fun h => method (request h)) ;;
      granted <- await_auth header prefix file_path action ;;
      if negb granted then
        modify_self (set_auth (Some false)) ;;
        send_error error_page 403 (Some "Not authorized for this prefix")
      else
        modify_self (set_auth (Some true)) ;;
        if String.eqb action "POST" then NamedTemporaryFile else ret tt
  | _, _ => send_error error_page 403 None
  end.

(** Python's [not self.auth] on the three values the attribute takes. *)
Definition not_auth (a : option bool) : bool :=
  match a with
  | Some true => false
  | Some false | None => true
  end.

(** [data_received], line 78. *)
Definition data_received (chunk : bytes) : M B unit :=
  a <- read_self auth ;;
  if not_auth a then send_error error_page 500 None
  else temp_write chunk.

(** [get], line 85. *)
Definition get (prefix file_path : string) : M B unit :=
  etag_in <- request_header "If-None-Match" ;;
  storage_object <- retrieve_file prefix file_path etag_in ;;
  match storage_object with
  | None => send_error error_page 404 None
  | Some so =>
      set_header "ETag" (etag so) ;;
      match local_file so with
      | None => set_status 304 None
      | Some path =>
          f_in <- open_rb path ;;
          for_each (read_chunks CHUNK f_in) write
      end ;;
      finish
  end.

(** [post], line 101. *)
Definition post (prefix file_path : string) : M B unit :=
  temp_close ;;
  t <- self_temp ;;
  storage_object <- store_file prefix file_path (name t) ;;
  set_status 204 None ;;
  set_header "ETag" (etag storage_object) ;;
  finish.

(** [delete], line 109. *)
Definition delete (prefix file_path : string) : M B unit :=
  delete_file prefix file_path ;;
  set_status 204 None ;;
  finish.
End Methods.
End FileHandler.

(** ** Routing ([make_app], line 154)

    The route is the regular expression
    [^/api/v0/files/(?P<prefix>[\d\w-]+)/(?P<file_path>[\d\w-]+)], which the
    framework anchors with a final [$] and matches against the path part of
    the request URI.  A character of the model is a code point below 256,
    which is how the request line reaches the pattern. *)

Definition ord (c : ascii) : N := N_of_ascii c.

Definition between (lo hi : N) (c : ascii) : bool :=
  ((lo <=? ord c) && (ord c <=? hi))%N.

(** [\d] on text: a decimal digit. *)
Definition is_digit (c : ascii) : bool := between 48 57 c.

(** [A-Za-z0-9_]. *)
Definition is_ascii_word (c : ascii) : bool :=
  between 48 57 c || between 65 90 c || between 97 122 c || (ord c =? 95)%N.

(** [\w] on text: alphanumeric in the sense of the Unicode database, or the
    underscore.  Above 127 these are the Latin-1 letters, the ordinal
    indicators, the micro sign, the superscript digits and the fractions. *)
Definition is_word (c : ascii) : bool :=
  is_ascii_word c
  || (ord c =? 170)%N || between 178 179 c || (ord c =? 181)%N
  || between 185 186 c || between 188 190 c
  || between 192 214 c || between 216 246 c || between 248 255 c.

(** The character class [[\d\w-]]. *)
Definition seg_char (c : ascii) : bool :=
  is_digit c || is_word c || (ord c =? 45)%N.

Arguments seg_char : simpl never.

(** The longest prefix of class characters and what follows it. *)
Fixpoint span_seg (s : string) : string * string :=
  match s with
  | EmptyString => (EmptyString, EmptyString)
  | String c rest =>
      if seg_char c
      then let '(seg, tail) := span_seg rest in (String c seg, tail)
      else (EmptyString, s)
  end.

(** Removing a literal prefix. *)
Fixpoint strip_prefix (lit s : string) : option string :=
  match lit, s with
  | EmptyString, _ => Some s
  | String a lit', String b s' =>
      if Ascii.eqb a b then strip_prefix lit' s' else None
  | String _ _, EmptyString => None
  end.

(** Python's [$]: the end of the text, or just before a final newline. *)
Definition at_end (s : string) : bool :=
  match s with
  | EmptyString => true
  | String c EmptyString => (ord c =? 10)%N
  | _ => false
  end.

(** Matching the route.  Neither class contains [/], so the greedy scan of
    each group is the only way the expression can match. *)
Definition route_match (path : string) : option (string * string) :=
  match strip_prefix "/api/v0/files/" path with
  | None => None
  | Some rest =>
      let '(prefix, rest1) := span_seg rest in
      match prefix, rest1 with
      | String _ _, String slash rest2 =>
          if (ord slash =? 47)%N then
            let '(file_path, rest3) := span_seg rest2 in
            match file_path with
            | String _ _ => if at_end rest3 then Some (prefix, file_path) else None
            | EmptyString => None
            end
          else None
      | _, _ => None
      end
  end.

(** [uri.partition('?')[0]]: the path part of the request URI. *)
Fixpoint path_of_uri (uri : string) : string :=
  match uri with
  | EmptyString => EmptyString
  | String c rest =>
      if (ord c =? 63)%N then EmptyString else String c (path_of_uri rest)
  end.

(** The keyword arguments the route hands to the handler. *)
Definition make_app (path : string) : option (gmap string string) :=
  match route_match path with
  | Some (prefix, file_path) =>
      Some (<["prefix" := prefix]> (<["file_path" := file_path]> ∅))
  | None => None
  end.

(** ** The request lifecycle ([Application] and [RequestHandler._execute])

    Framework code again; the handler is decorated with
    [stream_request_body], so the order is: [prepare]; unless that finished
    the response, [data_received] for every chunk; then the verb's method.
    An exception escaping [prepare] or the verb's method becomes an error
    response if none was sent; one escaping [data_received] tears the
    connection down.  [FileHandler] overrides neither [on_finish] nor
    [on_connection_close]. *)
Section Lifecycle.
Context {B : Type} {transfer : Transfer B}.
Variable auth_callback : AuthCallback.
Variable error_page : Z -> option string -> bytes.

Definition SUPPORTED_METHODS : list string :=
  ["GET"; "HEAD"; "POST"; "DELETE"; "PATCH"; "PUT"; "OPTIONS"].

Definition supported (action : string) : bool :=
  existsb (String.eqb action) SUPPORTED_METHODS.

(** [_handle_request_exception]. *)
Definition handle_request_exception (e : exn) : M B unit :=
  done <- read_self (fun h => finished (response h)) ;;
  if (done : bool) then ret tt
  else match e with
       | HTTPError status => send_error error_page status None
       | _ => send_error error_page 500 None
       end.

Definition catching (m : M B unit) : M B unit :=
  fun h w =>
    match m h w with
    | (Ok tt, h', w') => (Ok tt, h', w')
    | (Raise e, h', w') => handle_request_exception e h' w'
    end.

(** The verb's method, called with the route's keyword arguments; the
    verbs the class does not define raise 405. *)
Definition call_method : M B unit :=
  action <- read_self (fun h => method (request h)) ;;
  kwargs <- read_self path_kwargs ;;
  match kwargs !! "prefix", kwargs !! "file_path" with
  | Some prefix, Some file_path =>
      if String.eqb action "GET"
      then FileHandler.get error_page prefix file_path
      else if String.eqb action "POST"
      then FileHandler.post prefix file_path
      else if String.eqb action "DELETE"
      then FileHandler.delete prefix file_path
      else raise (HTTPError 405)
  | _, _ => raise TypeError
  end.

Definition execute : M B unit :=
  action <- read_self (fun h => method (request h)) ;;
  if negb (supported action)
  then handle_request_exception (HTTPError 405)
  else
    catching (FileHandler.prepare auth_callback error_page) ;;
    done <- read_self (fun h => finished (response h)) ;;
    if (done : bool) then ret tt
    else
      chunks <- read_self (fun h => body_chunks (request h)) ;;
      for_each chunks (FileHandler.data_received error_page) ;;
      complete <- read_self (fun h => body_complete (request h)) ;;
      if (complete : bool) then catching call_method else ret tt.

(** A request no route matches is answered by the framework alone. *)
Definition not_found : M B unit :=
  action <- read_self (fun h => method (request h)) ;;
  handle_request_exception (HTTPError (if supported action then 404 else 405)).

Definition handle_request (req : Request) (w : World B)
    : Outcome unit * Self * World B :=
  match make_app (path_of_uri (uri req)) with
  | Some kwargs => execute (new_handler req kwargs) w
  | None => not_found (new_handler req ∅) w
  end.
End Lifecycle.

(** ** Concrete collaborators for the worked examples *)

(** An in-memory backend: objects under [(prefix, path)], each with the etag
    it was stored under.  [store] takes the staged file over (the file leaves
    the disk), [retrieve] honours the conditional etag and otherwise stages
    the content in a download file, [delete] forgets the key. *)
Record MemBackend : Type := {
  objects : gmap (string * string) (string * bytes);
  stored : nat
}.

Definition mem_empty : MemBackend := {| objects := ∅; stored := O |}.

Definition mem_store (o : StorageObject) (b : MemBackend) (d : Disk)
    : Settled Receipt * MemBackend * Disk :=
  match so_local_file o with
  | None => (Failed "nothing staged", b, d)
  | Some path =>
      match d !! path with
      | None => (Failed "staged file missing", b, d)
      | Some content =>
          let tag := "e" +:+ pretty (S (stored b)) in
          (Completed {| etag := tag; local_file := None |},
           {| objects := <[(so_prefix o, so_file_path o) := (tag, content)]> (objects b);
              stored := S (stored b) |},
           base.delete path d)
      end
  end.

Definition mem_retrieve (o : StorageObject) (b : MemBackend) (d : Disk)
    : Settled (option Receipt) * MemBackend * Disk :=
  match objects b !! (so_prefix o, so_file_path o) with
  | None => (Completed None, b, d)
  | Some (tag, content) =>
      if opt_eqb (so_etag o) tag
      then (Completed (Some {| etag := tag; local_file := None |}), b, d)
      else
        let path := "download-" +:+ so_prefix o +:+ "-" +:+ so_file_path o in
        (Completed (Some {| etag := tag; local_file := Some path |}), b,
         <[path := content]> d)
  end.

Definition mem_delete (o : StorageObject) (b : MemBackend) (d : Disk)
    : Settled unit * MemBackend * Disk :=
  (Completed tt,
   {| objects := base.delete (so_prefix o, so_file_path o) (objects b);
      stored := stored b |},
   d).

#[export] Instance mem_transfer : Transfer MemBackend :=
  {| transfer_store := mem_store;
     transfer_retrieve := mem_retrieve;
     transfer_delete := mem_delete |}.

(** A backend that is down: every call fails. *)
Inductive Down : Type := down.

#[export] Instance down_transfer : Transfer Down :=
  {| transfer_store := fun _ b d => (Failed "down", b, d);
     transfer_retrieve := fun _ b d => (Failed "down", b, d);
     transfer_delete := fun _ b d => (Failed "down", b, d) |}.

(** Accounting servers. *)
Definition net_grants : HTTPRequest -> NetResult := fun _ => Replied 204.
Definition net_denies : HTTPRequest -> NetResult := fun _ => Replied 403.
Definition net_ok_200 : HTTPRequest -> NetResult := fun _ => Replied 200.
Definition net_down : HTTPRequest -> NetResult := fun _ => Unreachable.

(** An error page that just names the status. *)
Definition plain_error_page (status : Z) (why : option string) : bytes :=
  list_byte_of_string (pretty status).

Definition hello : bytes := list_byte_of_string "hello".

Definition empty_world {B} (b : B) : World B :=
  {| disk := ∅; backend := b; trace := [] |}.

Definition example_request (action target : string) (hdrs : gmap string string)
    (chunks : list bytes) (complete : bool) : Request :=
  {| method := action; uri := target; req_headers := hdrs;
     body_chunks := chunks; body_complete := complete |}.

Definition with_token : gmap string string := {["Authorization" := "Token abc"]}.

Definition post_doc1 : Request :=
  example_request "POST" "/api/v0/files/test/doc1" with_token [hello] true.

Definition get_doc1 : Request :=
  example_request "GET" "/api/v0/files/test/doc1" with_token [] true.

Definition get_doc1_if (tag : string) : Request :=
  example_request "GET" "/api/v0/files/test/doc1"
    (<["If-None-Match" := tag]> with_token) [] true.

Definition delete_doc1 : Request :=
  example_request "DELETE" "/api/v0/files/test/doc1" with_token [] true.

(** The remote strategy against a given accounting server. *)
Definition remote_auth (net : HTTPRequest -> NetResult) : AuthCallback :=
  check_auth default_options net.

(** Serving one request and keeping what an observer sees. *)
Definition serve {B} `{Transfer B} (net : HTTPRequest -> NetResult)
    (req : Request) (w : World B) : Self * World B :=
  let '(_, h, w') := handle_request (remote_auth net) plain_error_page req w in
  (h, w').

(** The route arguments of the example requests. *)
Definition doc1_kwargs : gmap string string :=
  <["prefix" := "test"]> (<["file_path" := "doc1"]> ∅).

(** A handler that has passed authorization for a request. *)
Definition authorized (req : Request) : Self :=
  set_auth (Some true)
    (set_auth_header (req_headers req !! "Authorization") (new_handler req doc1_kwargs)).

(** The world after [hello] has been stored under [test/doc1]. *)
Definition stocked_world : World MemBackend :=
  snd (serve net_grants post_doc1 (empty_world mem_empty)).




(** ** Vocabulary of the statements *)

(** Events by which the handler builds or sends the response. *)
Definition response_event (e : Event) : bool :=
  match e with
  | EvSendError _ _ | EvSetStatus _ | EvSetHeader _ _ | EvWrite _ | EvFinish => true
  | _ => false
  end.

(** Events of a backend call: its start and its settling. *)
Definition backend_event (e : Event) : bool :=
  match e with
  | EvBackendCall _ _ | EvBackendDone _ _ => true
  | _ => false
  end.

Definition fetch_event (e : Event) : bool :=
  match e with
  | EvFetch _ => true
  | _ => false
  end.

(** Events that touch an upload handle. *)
Definition temp_event (e : Event) : bool :=
  match e with
  | EvTempCreate _ | EvTempWrite _ _ | EvTempClose _ => true
  | _ => false
  end.

Definition silent (t : list Event) : Prop :=
  Forall (fun e => response_event e = false) t.

Definition offline (t : list Event) : Prop :=
  Forall (fun e => backend_event e = false) t.

(** Every backend event of [t] precedes every response event of [t]. *)
Definition backend_before_response (t : list Event) : Prop :=
  exists pre post, t = pre ++ post /\ silent pre /\ offline post.

(** What [send_error] leaves behind when nothing had been sent. *)
Definition error_response (error_page : Z -> option string -> bytes)
    (status : Z) (why : option string) : Response :=
  {| status_code := status; reason := why; headers := ∅;
     write_buffer := [error_page status why];
     headers_written := true; finished := true |}.

Definition send_error_events (error_page : Z -> option string -> bytes)
    (status : Z) (why : option string) : list Event :=
  [EvSendError status why; EvSetStatus status;
   EvWrite (error_page status why); EvFinish].

(** The status [_handle_request_exception] answers an exception with. *)
Definition error_status (e : exn) : Z :=
  match e with
  | HTTPError status => status
  | _ => 500
  end.

(** If a backend call of [ext] failed, nothing of the response preceded its
    settling, what follows is exactly the error response for status 500, and
    that is the response [r] that went out. *)
Definition failure_answered (error_page : Z -> option string -> bytes)
    (ext : list Event) (r : Response) : Prop :=
  forall op, In (EvBackendDone op false) ext ->
    r = error_response error_page 500 None
    /\ exists pre,
         ext = pre ++ EvBackendDone op false :: send_error_events error_page 500 None
         /\ silent pre.





(** A response is either still pending or gone out completely. *)
Definition coherent (r : Response) : Prop :=
  finished r = true -> headers_written r = true.

(** The chunking of a download: every chunk but the last is full, the last
    is not empty and not over-long. *)
Fixpoint well_chunked (size : nat) (chunks : list bytes) : Prop :=
  match chunks with
  | [] => True
  | [c] => (0 < length c <= size)%nat
  | c :: rest => length c = size /\ well_chunked size rest
  end.

(** ** Further collaborators and vocabulary *)

(** A backend whose receipts name a local file it never wrote. *)
Inductive Stale : Type := stale.

#[export] Instance stale_transfer : Transfer Stale :=
  {| transfer_store := fun _ b d => (Failed "read only", b, d);
     transfer_retrieve := fun _ b d =>
       (Completed (Some {| etag := "e9"; local_file := Some "gone" |}), b, d);
     transfer_delete := fun _ b d => (Completed tt, b, d) |}.

(** Option sets: authorization switched off, the static check, and the
    dummy backend together with [noauth]. *)
Definition noauth_options : Options :=
  {| opt_debug := false; opt_dummy := false; opt_transfers := 10;
     opt_noauth := true; opt_dummy_auth := true;
     opt_magicauth := "Token MAGICFARYDUST";
     opt_accountingserver := "http://localhost:8000" |}.

Definition static_options : Options :=
  {| opt_debug := false; opt_dummy := false; opt_transfers := 10;
     opt_noauth := false; opt_dummy_auth := true;
     opt_magicauth := "Token MAGICFARYDUST";
     opt_accountingserver := "http://localhost:8000" |}.

Definition dummy_noauth_options : Options :=
  {| opt_debug := false; opt_dummy := true; opt_transfers := 10;
     opt_noauth := true; opt_dummy_auth := false;
     opt_magicauth := "Token MAGICFARYDUST";
     opt_accountingserver := "http://localhost:8000" |}.


(** A GET that carries a body. *)
Definition get_with_body : Request :=
  example_request "GET" "/api/v0/files/test/doc1" with_token [hello] true.

(** A trace without any event on an upload handle. *)
Definition handle_free (t : list Event) : Prop :=
  Forall (fun e => temp_event e = false) t.

(** A trace without any outbound request. *)
Definition fetch_free (t : list Event) : Prop :=
  Forall (fun e => fetch_event e = false) t.

(** A trace with at most one backend call, whose settling follows the call
    at once. *)
Definition one_call (t : list Event) : Prop :=
  offline t
  \/ exists pre op o ok post,
       t = pre ++ EvBackendCall op o :: EvBackendDone op ok :: post
       /\ offline pre /\ offline post.

(** The number of reads of at most [size] bytes that [len] bytes take. *)
Definition chunk_count (size len : nat) : nat := ((len + size - 1) / size)%nat.

(** * Properties *)

(** ** Authorization *)




(** ** The response primitives *)

Ltac run :=
  unfold send_error, clear, set_status, set_header, write, finish,
    update_response, request_header, bind, ret, raise,
    modify_self, modify_world, read_self, read_world; simpl.

Ltac tidy := unfold emit, set_disk, set_backend; simpl; rewrite <- ?app_assoc; simpl.

Section ResponseFacts.
Context {B : Type}.
Variable error_page : Z -> option string -> bytes.

Lemma send_error_pending (status : Z) (why : option string) (h : Self) (w : World B) :
  headers_written (response h) = false ->
  finished (response h) = false ->
  send_error error_page status why h w =
    (Ok tt, set_response (error_response error_page status why) h,
     {| disk := disk w; backend := backend w;
        trace := trace w ++ send_error_events error_page status why |}).
Proof.
  intros Hw Hf. run. rewrite Hw. simpl. rewrite Hf. simpl. tidy. reflexivity.
Qed.

Lemma send_error_gone (status : Z) (why : option string) (h : Self) (w : World B) :
  headers_written (response h) = true ->
  finished (response h) = true ->
  send_error error_page status why h w = (Ok tt, h, emit (EvSendError status why) w).
Proof.
  intros Hw Hf. run. rewrite Hw. simpl. rewrite Hf. reflexivity.
Qed.

Lemma write_all (chunks : list bytes) (h : Self) (w : World B) :
  finished (response h) = false ->
  for_each chunks write h w =
    (Ok tt,
     set_response
       {| status_code := status_code (response h); reason := reason (response h);
          headers := headers (response h);
          write_buffer := write_buffer (response h) ++ chunks;
          headers_written := headers_written (response h);
          finished := false |} h,
     {| disk := disk w; backend := backend w;
        trace := trace w ++ map EvWrite chunks |}).
Proof.
  revert h w. induction chunks as [|c chunks IH]; intros h w Hf.
  - simpl. unfold ret. rewrite !app_nil_r. destruct h as [? ? ? ? ? []], w.
    simpl in *. subst. reflexivity.
  - simpl. unfold bind at 1. unfold write at 1. run. rewrite Hf. simpl.
    rewrite IH by (simpl; exact Hf). simpl. tidy.
    rewrite Hf. reflexivity.
Qed.
End ResponseFacts.

(** ** [prepare] *)

Section PrepareFacts.
Context {B : Type} {transfer : Transfer B}.
Variable auth_callback : AuthCallback.
Variable error_page : Z -> option string -> bytes.

Lemma fetches_logged (sent : list HTTPRequest) (w : World B) :
  fold_left (fun w' r => emit (EvFetch r) w') sent w =
    {| disk := disk w; backend := backend w; trace := trace w ++ map EvFetch sent |}.
Proof.
  revert w. induction sent as [|r sent IH]; intros w; simpl.
  - rewrite app_nil_r. destruct w; reflexivity.
  - rewrite IH. tidy. reflexivity.
Qed.

Variables (h : Self) (w : World B) (prefix file_path : string).
Hypothesis Hprefix : path_kwargs h !! "prefix" = Some prefix.
Hypothesis Hpath : path_kwargs h !! "file_path" = Some file_path.

Let credential := req_headers (request h) !! "Authorization".
Let asked := auth_callback credential prefix file_path (method (request h)).

Lemma prepare_raised (e : exn) (sent : list HTTPRequest) :
  asked = (Raise e, sent) ->
  FileHandler.prepare auth_callback error_page h w =
    (Raise e,
     {| request := request h; path_kwargs := path_kwargs h; auth := None;
        auth_header := credential; temp := temp h; response := response h |},
     {| disk := disk w; backend := backend w;
        trace := trace w ++ map EvFetch sent |}).
Proof.
  intros Hcb. unfold FileHandler.prepare, FileHandler.await_auth. run.
  rewrite Hprefix, Hpath. simpl. fold credential. fold asked. rewrite Hcb.
  rewrite fetches_logged. reflexivity.
Qed.

Lemma prepare_denied (sent : list HTTPRequest) :
  asked = (Ok false, sent) ->
  headers_written (response h) = false ->
  finished (response h) = false ->
  FileHandler.prepare auth_callback error_page h w =
    (Ok tt,
     {| request := request h; path_kwargs := path_kwargs h; auth := Some false;
        auth_header := credential; temp := temp h;
        response := error_response error_page 403
                      (Some "Not authorized for this prefix") |},
     {| disk := disk w; backend := backend w;
        trace := trace w ++ map EvFetch sent
                 ++ send_error_events error_page 403
                      (Some "Not authorized for this prefix") |}).
Proof.
  intros Hcb Hw Hf. unfold FileHandler.prepare, FileHandler.await_auth. run.
  rewrite Hprefix, Hpath. simpl. fold credential. fold asked. rewrite Hcb.
  rewrite fetches_logged. simpl. rewrite Hw. simpl. rewrite Hf. simpl.
  tidy. reflexivity.
Qed.

Lemma prepare_granted (sent : list HTTPRequest) :
  asked = (Ok true, sent) ->
  FileHandler.prepare auth_callback error_page h w =
    if String.eqb (method (request h)) "POST" then
      let fname : string := fresh (dom (disk w)) in
      (Ok tt,
       {| request := request h; path_kwargs := path_kwargs h; auth := Some true;
          auth_header := credential;
          temp := Some {| name := fname; buffered := []; closed := false |};
          response := response h |},
       {| disk := <[fname := []]> (disk w); backend := backend w;
          trace := trace w ++ map EvFetch sent ++ [EvTempCreate fname] |})
    else
      (Ok tt,
       {| request := request h; path_kwargs := path_kwargs h; auth := Some true;
          auth_header := credential; temp := temp h; response := response h |},
       {| disk := disk w; backend := backend w;
          trace := trace w ++ map EvFetch sent |}).
Proof.
  intros Hcb. unfold FileHandler.prepare, FileHandler.await_auth. run.
  rewrite Hprefix, Hpath. simpl. fold credential. fold asked. rewrite Hcb.
  rewrite fetches_logged. simpl.
  destruct (String.eqb (method (request h)) "POST"); simpl.
  - unfold NamedTemporaryFile. simpl. tidy. reflexivity.
  - reflexivity.
Qed.
End PrepareFacts.

(** ** [data_received] *)

Section DataFacts.
Context {B : Type}.
Variable error_page : Z -> option string -> bytes.

Lemma data_received_rejects (chunk : bytes) (h : Self) (w : World B) :
  auth h <> Some true ->
  FileHandler.data_received error_page chunk h w = send_error error_page 500 None h w.
Proof.
  intros Hauth. unfold FileHandler.data_received, bind, read_self.
  destruct (auth h) as [[]|]; simpl; congruence.
Qed.

Lemma deliver_granted (chunks : list bytes) (h : Self) (w : World B) (t : TempFile) :
  auth h = Some true ->
  temp h = Some t ->
  closed t = false ->
  for_each chunks (FileHandler.data_received error_page) h w =
    (Ok tt,
     {| request := request h; path_kwargs := path_kwargs h; auth := Some true;
        auth_header := auth_header h;
        temp := Some {| name := name t; buffered := buffered t ++ concat chunks;
                        closed := false |};
        response := response h |},
     {| disk := disk w; backend := backend w;
        trace := trace w ++ map (EvTempWrite (name t)) chunks |}).
Proof.
  revert h w t. induction chunks as [|c chunks IH]; intros h w t Ha Ht Hc.
  - simpl. unfold ret. rewrite !app_nil_r.
    destruct h as [? ? ? ? ? ?], w, t. simpl in *. subst. reflexivity.
  - simpl. unfold bind at 1. unfold FileHandler.data_received, temp_write, self_temp.
    run. rewrite Ha. simpl. rewrite Ht. simpl. rewrite Hc. simpl.
    erewrite IH; [| simpl; first [exact Ha | reflexivity] ..]. simpl. tidy.
    reflexivity.
Qed.

Lemma deliver_no_handle (c : bytes) (chunks : list bytes) (h : Self) (w : World B) :
  auth h = Some true ->
  temp h = None ->
  for_each (c :: chunks) (FileHandler.data_received error_page) h w =
    (Raise (AttributeError "temp"), h, w).
Proof.
  intros Ha Ht. simpl. unfold bind at 1.
  unfold FileHandler.data_received, temp_write, self_temp. run.
  rewrite Ha. simpl. rewrite Ht. reflexivity.
Qed.
End DataFacts.

(** ** The verb methods *)

Section VerbFacts.
Context {B : Type} {transfer : Transfer B}.
Variable error_page : Z -> option string -> bytes.
Variables (h : Self) (w : World B) (prefix file_path : string).

Let wanted : StorageObject :=
  {| so_prefix := prefix; so_file_path := file_path;
     so_etag := req_headers (request h) !! "If-None-Match";
     so_local_file := None |}.

Ltac enter Hcall :=
  unfold FileHandler.get, FileHandler.delete, FileHandler.post,
    FileHandler.retrieve_file, FileHandler.delete_file, FileHandler.store_file,
    FileHandler.on_executor, temp_close, self_temp, open_rb;
  run; try fold wanted; rewrite ?Hcall; simpl.

Lemma get_failed what b' d' :
  transfer_retrieve wanted (backend w) (disk w) = (Failed what, b', d') ->
  FileHandler.get error_page prefix file_path h w =
    (Raise (BackendError what), h,
     {| disk := d'; backend := b';
        trace := trace w ++ [EvBackendCall OpRetrieve wanted;
                             EvBackendDone OpRetrieve false] |}).
Proof. intros Hcall. enter Hcall. tidy. reflexivity. Qed.

Lemma get_missing b' d' :
  transfer_retrieve wanted (backend w) (disk w) = (Completed None, b', d') ->
  headers_written (response h) = false ->
  finished (response h) = false ->
  FileHandler.get error_page prefix file_path h w =
    (Ok tt, set_response (error_response error_page 404 None) h,
     {| disk := d'; backend := b';
        trace := trace w ++ [EvBackendCall OpRetrieve wanted;
                             EvBackendDone OpRetrieve true]
                 ++ send_error_events error_page 404 None |}).
Proof.
  intros Hcall Hw Hf. enter Hcall. rewrite Hw. simpl. rewrite Hf. simpl.
  tidy. reflexivity.
Qed.

Lemma get_not_modified r b' d' :
  transfer_retrieve wanted (backend w) (disk w) = (Completed (Some r), b', d') ->
  local_file r = None ->
  finished (response h) = false ->
  FileHandler.get error_page prefix file_path h w =
    (Ok tt,
     set_response
       {| status_code := 304; reason := None;
          headers := <["ETag" := etag r]> (headers (response h));
          write_buffer := write_buffer (response h);
          headers_written := true; finished := true |} h,
     {| disk := d'; backend := b';
        trace := trace w ++ [EvBackendCall OpRetrieve wanted;
                             EvBackendDone OpRetrieve true;
                             EvSetHeader "ETag" (etag r);
                             EvSetStatus 304; EvFinish] |}).
Proof.
  intros Hcall Hl Hf. enter Hcall. rewrite Hl. simpl. rewrite Hf. simpl.
  tidy. reflexivity.
Qed.

Lemma get_streams r path data b' d' :
  transfer_retrieve wanted (backend w) (disk w) = (Completed (Some r), b', d') ->
  local_file r = Some path ->
  d' !! path = Some data ->
  finished (response h) = false ->
  FileHandler.get error_page prefix file_path h w =
    (Ok tt,
     set_response
       {| status_code := status_code (response h); reason := reason (response h);
          headers := <["ETag" := etag r]> (headers (response h));
          write_buffer := write_buffer (response h) ++ read_chunks CHUNK data;
          headers_written := true; finished := true |} h,
     {| disk := d'; backend := b';
        trace := trace w ++ [EvBackendCall OpRetrieve wanted;
                             EvBackendDone OpRetrieve true;
                             EvSetHeader "ETag" (etag r);
                             EvOpenRead path]
                 ++ map EvWrite (read_chunks CHUNK data) ++ [EvFinish] |}).
Proof.
  intros Hcall Hl Hd Hf.
  unfold FileHandler.get, FileHandler.retrieve_file, FileHandler.on_executor,
    open_rb, request_header, set_header, update_response, bind, ret, raise,
    modify_self, modify_world, read_self, read_world.
  simpl. fold wanted. rewrite Hcall. simpl. rewrite Hl. simpl. rewrite Hd.
  rewrite write_all by (simpl; exact Hf). run. tidy. reflexivity.
Qed.

Lemma get_lost r path b' d' :
  transfer_retrieve wanted (backend w) (disk w) = (Completed (Some r), b', d') ->
  local_file r = Some path ->
  d' !! path = None ->
  exists h',
    FileHandler.get error_page prefix file_path h w =
      (Raise (FileNotFoundError path), h',
       {| disk := d'; backend := b';
          trace := trace w ++ [EvBackendCall OpRetrieve wanted;
                               EvBackendDone OpRetrieve true;
                               EvSetHeader "ETag" (etag r);
                               EvOpenRead path] |})
    /\ headers_written (response h') = headers_written (response h)
    /\ finished (response h') = finished (response h).
Proof.
  intros Hcall Hl Hd. eexists. enter Hcall. rewrite Hl. simpl. rewrite Hd. simpl.
  tidy. split; [reflexivity|]. simpl. split; reflexivity.
Qed.
End VerbFacts.

Section WriteVerbFacts.
Context {B : Type} {transfer : Transfer B}.
Variables (h : Self) (w : World B) (prefix file_path : string).

Ltac enter Hcall :=
  unfold FileHandler.delete, FileHandler.post,
    FileHandler.delete_file, FileHandler.store_file,
    FileHandler.on_executor, temp_close, self_temp;
  run; rewrite ?Hcall; simpl.

Let doomed : StorageObject :=
  {| so_prefix := prefix; so_file_path := file_path;
     so_etag := None; so_local_file := None |}.

Lemma delete_done b' d' :
  transfer_delete doomed (backend w) (disk w) = (Completed tt, b', d') ->
  finished (response h) = false ->
  FileHandler.delete prefix file_path h w =
    (Ok tt,
     set_response
       {| status_code := 204; reason := None; headers := headers (response h);
          write_buffer := write_buffer (response h);
          headers_written := true; finished := true |} h,
     {| disk := d'; backend := b';
        trace := trace w ++ [EvBackendCall OpDelete doomed;
                             EvBackendDone OpDelete true;
                             EvSetStatus 204; EvFinish] |}).
Proof.
  intros Hcall Hf. enter Hcall. fold doomed. rewrite Hcall. simpl.
  rewrite Hf. simpl. tidy. reflexivity.
Qed.

Lemma delete_failed what b' d' :
  transfer_delete doomed (backend w) (disk w) = (Failed what, b', d') ->
  FileHandler.delete prefix file_path h w =
    (Raise (BackendError what), h,
     {| disk := d'; backend := b';
        trace := trace w ++ [EvBackendCall OpDelete doomed;
                             EvBackendDone OpDelete false] |}).
Proof.
  intros Hcall. enter Hcall. fold doomed. rewrite Hcall. simpl. tidy. reflexivity.
Qed.

Variable t : TempFile.
Hypothesis Htemp : temp h = Some t.
Hypothesis Hopen : closed t = false.

Let staged : StorageObject :=
  {| so_prefix := prefix; so_file_path := file_path;
     so_etag := None; so_local_file := Some (name t) |}.
Let flushed : Disk := alter (fun content => content ++ buffered t) (name t) (disk w).
Let shut : TempFile := {| name := name t; buffered := []; closed := true |}.

Lemma post_stored r b' d' :
  transfer_store staged (backend w) flushed = (Completed r, b', d') ->
  finished (response h) = false ->
  FileHandler.post prefix file_path h w =
    (Ok tt,
     {| request := request h; path_kwargs := path_kwargs h; auth := auth h;
        auth_header := auth_header h; temp := Some shut;
        response :=
          {| status_code := 204; reason := None;
             headers := <["ETag" := etag r]> (headers (response h));
             write_buffer := write_buffer (response h);
             headers_written := true; finished := true |} |},
     {| disk := d'; backend := b';
        trace := trace w ++ [EvTempClose (name t);
                             EvBackendCall OpStore staged;
                             EvBackendDone OpStore true;
                             EvSetStatus 204;
                             EvSetHeader "ETag" (etag r); EvFinish] |}).
Proof.
  intros Hcall Hf. enter Hcall. rewrite Htemp. simpl. rewrite Hopen. simpl.
  fold staged. fold flushed. rewrite Hcall. simpl. rewrite Hf. simpl.
  tidy. reflexivity.
Qed.

Lemma post_failed what b' d' :
  transfer_store staged (backend w) flushed = (Failed what, b', d') ->
  FileHandler.post prefix file_path h w =
    (Raise (BackendError what),
     {| request := request h; path_kwargs := path_kwargs h; auth := auth h;
        auth_header := auth_header h; temp := Some shut;
        response := response h |},
     {| disk := d'; backend := b';
        trace := trace w ++ [EvTempClose (name t);
                             EvBackendCall OpStore staged;
                             EvBackendDone OpStore false] |}).
Proof.
  intros Hcall. enter Hcall. rewrite Htemp. simpl. rewrite Hopen. simpl.
  fold staged. fold flushed. rewrite Hcall. simpl. tidy. reflexivity.
Qed.
End WriteVerbFacts.

(** ** Chunked reading *)

Lemma read_loop_concat (size fuel : nat) (data : bytes) :
  (0 < size)%nat -> (length data < fuel)%nat ->
  concat (read_loop fuel size data) = data.
Proof.
  intros Hsize. revert data.
  induction fuel as [|fuel IH]; intros data Hlen; [lia|].
  simpl. destruct (take size data) as [|b chunk] eqn:Htake.
  - destruct data as [|b data]; [reflexivity|].
    destruct size; [lia | discriminate].
  - assert (Hdata : (0 < length data)%nat).
    { destruct data; [rewrite take_nil in Htake; discriminate | simpl; lia]. }
    change (concat ((b :: chunk) :: read_loop fuel size (drop size data)))
      with ((b :: chunk) ++ concat (read_loop fuel size (drop size data))).
    rewrite IH by (rewrite length_drop; lia).
    rewrite <- Htake. apply take_drop.
Qed.

Lemma read_loop_nonempty (size fuel : nat) (data : bytes) :
  (0 < size)%nat -> data <> [] ->
  read_loop (S fuel) size data <> [].
Proof.
  intros Hsize Hdata. simpl.
  destruct (take size data) eqn:Htake; [|discriminate].
  destruct data; [congruence|]. destruct size; [lia | discriminate].
Qed.

Lemma read_loop_well_chunked (size fuel : nat) (data : bytes) :
  (0 < size)%nat -> (length data < fuel)%nat ->
  well_chunked size (read_loop fuel size data).
Proof.
  intros Hsize. revert data.
  induction fuel as [|fuel IH]; intros data Hlen; [lia|].
  simpl. destruct (take size data) as [|b chunk] eqn:Htake; [exact I|].
  assert (Hdata : data <> []) by (intros ->; rewrite take_nil in Htake; discriminate).
  assert (Hpos : (0 < length data)%nat) by (destruct data; simpl; [congruence | lia]).
  destruct (le_lt_dec (length data) size) as [Hshort|Hlong].
  - rewrite drop_ge by exact Hshort.
    replace (read_loop fuel size []) with (@nil bytes)
      by (destruct fuel; simpl; rewrite ?take_nil; reflexivity).
    change (0 < length (b :: chunk) <= size)%nat.
    rewrite <- Htake, take_ge by exact Hshort. lia.
  - assert (Hrest : drop size data <> []).
    { intros Hnil. apply (f_equal length) in Hnil.
      rewrite length_drop in Hnil. simpl in Hnil. lia. }
    destruct fuel as [|fuel']; [lia|].
    pose proof (read_loop_nonempty size fuel' _ Hsize Hrest) as Hne.
    specialize (IH (drop size data)).
    destruct (read_loop (S fuel') size (drop size data)) as [|c rest]; [congruence|].
    change (length (b :: chunk) = size /\ well_chunked size (c :: rest)).
    split.
    + rewrite <- Htake, length_take. lia.
    + apply IH. rewrite length_drop. lia.
Qed.



(** ** Retrieval *)


(** ** Traces *)

Lemma offline_ordered (t : list Event) : offline t -> backend_before_response t.
Proof.
  intros H. exists [], t. split; [reflexivity|]. split; [constructor | exact H].
Qed.

Lemma quiet_prefix_ordered (quiet t : list Event) :
  silent quiet -> backend_before_response t -> backend_before_response (quiet ++ t).
Proof.
  intros Hq (pre & post & -> & Hpre & Hpost).
  exists (quiet ++ pre), post. rewrite app_assoc. split; [reflexivity|].
  split; [apply Forall_app; split; assumption | exact Hpost].
Qed.

Lemma fetches_silent (sent : list HTTPRequest) : silent (map EvFetch sent).
Proof. induction sent; constructor; [reflexivity | assumption]. Qed.

Lemma fetches_offline (sent : list HTTPRequest) : offline (map EvFetch sent).
Proof. induction sent; constructor; [reflexivity | assumption]. Qed.

Lemma temp_writes_silent (fname : string) (chunks : list bytes) :
  silent (map (EvTempWrite fname) chunks).
Proof. induction chunks; constructor; [reflexivity | assumption]. Qed.

Lemma temp_writes_offline (fname : string) (chunks : list bytes) :
  offline (map (EvTempWrite fname) chunks).
Proof. induction chunks; constructor; [reflexivity | assumption]. Qed.

Lemma writes_offline (chunks : list bytes) : offline (map EvWrite chunks).
Proof. induction chunks; constructor; [reflexivity | assumption]. Qed.

Lemma send_error_offline error_page status why :
  offline (send_error_events error_page status why).
Proof. repeat constructor. Qed.

Lemma no_failure_in (t : list Event) (op : BackendOp) :
  offline t -> ~ In (EvBackendDone op false) t.
Proof.
  intros Hoff Hin. unfold offline in Hoff. rewrite List.Forall_forall in Hoff.
  specialize (Hoff _ Hin). discriminate.
Qed.

Lemma offline_answered error_page (t : list Event) (r : Response) :
  offline t -> failure_answered error_page t r.
Proof. intros Hoff op Hin. destruct (no_failure_in t op Hoff Hin). Qed.

Lemma quiet_prefix_answered error_page (quiet t : list Event) (r : Response) :
  silent quiet -> offline quiet ->
  failure_answered error_page t r -> failure_answered error_page (quiet ++ t) r.
Proof.
  intros Hs Ho Ht op Hin. apply in_app_or in Hin as [Hin|Hin].
  - destruct (no_failure_in quiet op Ho Hin).
  - destruct (Ht op Hin) as (Hr & pre & -> & Hpre). split; [exact Hr|].
    exists (quiet ++ pre). rewrite app_assoc. split; [reflexivity|].
    apply Forall_app; split; assumption.
Qed.

Lemma split_answered error_page (pre post : list Event) (r : Response) :
  (forall op, ~ In (EvBackendDone op false) pre) ->
  offline post ->
  failure_answered error_page (pre ++ post) r.
Proof.
  intros Hpre Hpost op Hin. apply in_app_or in Hin as [Hin|Hin].
  - destruct (Hpre op Hin).
  - destruct (no_failure_in post op Hpost Hin).
Qed.

Lemma failed_call_answered error_page (op : BackendOp) (o : StorageObject)
    (before : list Event) :
  silent before -> offline before ->
  failure_answered error_page
    (before ++ [EvBackendCall op o; EvBackendDone op false]
     ++ send_error_events error_page 500 None)
    (error_response error_page 500 None).
Proof.
  intros Hs Ho op' Hin. split; [reflexivity|].
  apply in_app_or in Hin as [Hin|Hin]; [destruct (no_failure_in _ _ Ho Hin)|].
  simpl in Hin.
  destruct Hin as [Hin|[Hin|[Hin|[Hin|[Hin|[Hin|[]]]]]]]; try discriminate.
  injection Hin as <-.
  exists (before ++ [EvBackendCall op o]). rewrite <- app_assoc. split; [reflexivity|].
  apply Forall_app; split; [exact Hs | repeat constructor].
Qed.

Lemma failed_call_ordered (op : BackendOp) (o : StorageObject)
    (before : list Event) (ok : bool) (after : list Event) :
  silent before -> offline after ->
  backend_before_response
    (before ++ [EvBackendCall op o; EvBackendDone op ok] ++ after).
Proof.
  intros Hs Ho. exists (before ++ [EvBackendCall op o; EvBackendDone op ok]), after.
  rewrite <- app_assoc. split; [reflexivity|]. split; [|exact Ho].
  apply Forall_app; split; [exact Hs | repeat constructor].
Qed.

(** ** The lifecycle *)

Section LifecycleFacts.
Context {B : Type} {transfer : Transfer B}.
Variable auth_callback : AuthCallback.
Variable error_page : Z -> option string -> bytes.

Lemma handled_pending (e : exn) (h : Self) (w : World B) :
  headers_written (response h) = false ->
  finished (response h) = false ->
  handle_request_exception error_page e h w =
    (Ok tt, set_response (error_response error_page (error_status e) None) h,
     {| disk := disk w; backend := backend w;
        trace := trace w ++ send_error_events error_page (error_status e) None |}).
Proof.
  intros Hw Hf. unfold handle_request_exception, bind, read_self. rewrite Hf.
  destruct e; simpl; apply send_error_pending; assumption.
Qed.

(** The verb's method under the framework's exception handler, entered
    with nothing sent yet. *)
Lemma verb_method_ordered (h : Self) (w : World B) (prefix file_path : string) :
  path_kwargs h !! "prefix" = Some prefix ->
  path_kwargs h !! "file_path" = Some file_path ->
  headers_written (response h) = false ->
  finished (response h) = false ->
  (String.eqb (method (request h)) "POST" = true ->
   exists t, temp h = Some t /\ closed t = false) ->
  exists out h' w' ext,
    catching error_page (call_method error_page) h w = (out, h', w')
    /\ trace w' = trace w ++ ext
    /\ backend_before_response ext
    /\ failure_answered error_page ext (response h').
Proof.
  intros Hprefix Hpath Hw Hf Hpost.
  unfold catching, call_method, bind, read_self. rewrite Hprefix, Hpath.
  destruct (String.eqb (method (request h)) "GET") eqn:Hget.
  { set (wanted := {| so_prefix := prefix; so_file_path := file_path;
                      so_etag := req_headers (request h) !! "If-None-Match";
                      so_local_file := None |}).
    destruct (transfer_retrieve wanted (backend w) (disk w))
      as [[settled b'] d'] eqn:Hcall.
    destruct settled as [[receipt|]|what].
    - destruct (local_file receipt) as [path|] eqn:Hlocal.
      + destruct (d' !! path) as [payload|] eqn:Hdisk.
        * rewrite (get_streams error_page h w prefix file_path receipt path payload b' d')
            by assumption.
          eexists _, _, _, _. split; [reflexivity|]. split; [reflexivity|].
          split.
          -- apply (failed_call_ordered OpRetrieve wanted [] true);
               [constructor|].
             constructor; [reflexivity|]. constructor; [reflexivity|].
             apply Forall_app; split; [apply writes_offline | repeat constructor].
          -- apply (split_answered error_page
                      [EvBackendCall OpRetrieve wanted; EvBackendDone OpRetrieve true]).
             ++ intros op [Hin|[Hin|[]]]; discriminate.
             ++ constructor; [reflexivity|]. constructor; [reflexivity|].
                apply Forall_app; split; [apply writes_offline | repeat constructor].
        * destruct (get_lost error_page h w prefix file_path receipt path b' d'
                      Hcall Hlocal Hdisk) as (h1 & -> & Hw1 & Hf1).
          rewrite handled_pending by congruence. simpl.
          eexists _, _, _, _. split; [reflexivity|]. split.
          { simpl. rewrite <- app_assoc. reflexivity. }
          split.
          -- apply (failed_call_ordered OpRetrieve wanted [] true);
               [constructor | repeat constructor].
          -- apply (split_answered error_page
                      [EvBackendCall OpRetrieve wanted; EvBackendDone OpRetrieve true]).
             ++ intros op [Hin|[Hin|[]]]; discriminate.
             ++ repeat constructor.
      + rewrite (get_not_modified error_page h w prefix file_path receipt b' d')
          by assumption.
        eexists _, _, _, _. split; [reflexivity|]. split; [reflexivity|].
        split.
        * apply (failed_call_ordered OpRetrieve wanted [] true);
            [constructor | repeat constructor].
        * apply (split_answered error_page
                   [EvBackendCall OpRetrieve wanted; EvBackendDone OpRetrieve true]).
          -- intros op [Hin|[Hin|[]]]; discriminate.
          -- repeat constructor.
    - rewrite (get_missing error_page h w prefix file_path b' d') by assumption.
      eexists _, _, _, _. split; [reflexivity|]. split; [reflexivity|].
      split.
      + apply (failed_call_ordered OpRetrieve wanted [] true);
          [constructor | repeat constructor].
      + apply (split_answered error_page
                 [EvBackendCall OpRetrieve wanted; EvBackendDone OpRetrieve true]).
        * intros op [Hin|[Hin|[]]]; discriminate.
        * repeat constructor.
    - rewrite (get_failed error_page h w prefix file_path what b' d') by assumption.
      rewrite handled_pending by assumption. simpl.
      eexists _, _, _, _. split; [reflexivity|]. split.
      { simpl. rewrite <- app_assoc. reflexivity. }
      split.
      + apply (failed_call_ordered OpRetrieve wanted [] false);
          [constructor | repeat constructor].
      + apply (failed_call_answered error_page OpRetrieve wanted []); constructor. }
  destruct (String.eqb (method (request h)) "POST") eqn:Hispost.
  { destruct (Hpost eq_refl) as (t & Ht & Hopen).
    set (staged := {| so_prefix := prefix; so_file_path := file_path;
                      so_etag := None; so_local_file := Some (name t) |}).
    set (flushed := alter (fun content => content ++ buffered t) (name t) (disk w)).
    destruct (transfer_store staged (backend w) flushed)
      as [[settled b'] d'] eqn:Hcall.
    destruct settled as [receipt|what].
    - rewrite (post_stored h w prefix file_path t Ht Hopen receipt b' d') by assumption.
      eexists _, _, _, _. split; [reflexivity|]. split; [reflexivity|].
      split.
      + apply (failed_call_ordered OpStore staged [EvTempClose (name t)] true);
          repeat constructor.
      + apply (split_answered error_page
                 [EvTempClose (name t); EvBackendCall OpStore staged;
                  EvBackendDone OpStore true]).
        * intros op [Hin|[Hin|[Hin|[]]]]; discriminate.
        * repeat constructor.
    - rewrite (post_failed h w prefix file_path t Ht Hopen what b' d') by assumption.
      rewrite handled_pending by assumption. simpl.
      eexists _, _, _, _. split; [reflexivity|]. split.
      { simpl. rewrite <- app_assoc. reflexivity. }
      split.
      + apply (failed_call_ordered OpStore staged [EvTempClose (name t)] false);
          repeat constructor.
      + apply (failed_call_answered error_page OpStore staged [EvTempClose (name t)]);
          repeat constructor. }
  destruct (String.eqb (method (request h)) "DELETE") eqn:Hdel.
  { set (doomed := {| so_prefix := prefix; so_file_path := file_path;
                      so_etag := None; so_local_file := None |}).
    destruct (transfer_delete doomed (backend w) (disk w))
      as [[settled b'] d'] eqn:Hcall.
    destruct settled as [[]|what].
    - rewrite (delete_done h w prefix file_path b' d') by assumption.
      eexists _, _, _, _. split; [reflexivity|]. split; [reflexivity|].
      split.
      + apply (failed_call_ordered OpDelete doomed [] true);
          repeat constructor.
      + apply (split_answered error_page
                 [EvBackendCall OpDelete doomed; EvBackendDone OpDelete true]).
        * intros op [Hin|[Hin|[]]]; discriminate.
        * repeat constructor.
    - rewrite (delete_failed h w prefix file_path what b' d') by assumption.
      rewrite handled_pending by assumption. simpl.
      eexists _, _, _, _. split; [reflexivity|]. split.
      { simpl. rewrite <- app_assoc. reflexivity. }
      split.
      + apply (failed_call_ordered OpDelete doomed [] false);
          repeat constructor.
      + apply (failed_call_answered error_page OpDelete doomed []); constructor. }
  unfold raise. rewrite handled_pending by assumption. simpl.
  eexists _, _, _, _. split; [reflexivity|]. split; [reflexivity|].
  split.
  - apply offline_ordered. repeat constructor.
  - apply offline_answered. repeat constructor.
Qed.
End LifecycleFacts.

Lemma routed_kwargs (path prefix file_path : string) :
  route_match path = Some (prefix, file_path) ->
  exists kwargs,
    make_app path = Some kwargs
    /\ kwargs !! "prefix" = Some prefix
    /\ kwargs !! "file_path" = Some file_path.
Proof.
  intros Hroute. unfold make_app. rewrite Hroute. eexists. split; [reflexivity|].
  split; [apply lookup_insert_eq|].
  rewrite lookup_insert_ne by discriminate. apply lookup_insert_eq.
Qed.

Lemma make_app_inv (path : string) (kwargs : gmap string string) :
  make_app path = Some kwargs ->
  exists prefix file_path,
    route_match path = Some (prefix, file_path)
    /\ kwargs !! "prefix" = Some prefix
    /\ kwargs !! "file_path" = Some file_path.
Proof.
  unfold make_app. destruct (route_match path) as [[prefix file_path]|] eqn:Hroute;
    [|discriminate].
  intros [= <-]. exists prefix, file_path. split; [reflexivity|].
  split; [apply lookup_insert_eq|].
  rewrite lookup_insert_ne by discriminate. apply lookup_insert_eq.
Qed.

Section RequestFacts.
Context {B : Type} {transfer : Transfer B}.
Variable auth_callback : AuthCallback.
Variable error_page : Z -> option string -> bytes.

Lemma execute_supported (h : Self) (w : World B) :
  supported (method (request h)) = true ->
  execute auth_callback error_page h w =
    match catching error_page (FileHandler.prepare auth_callback error_page) h w with
    | (Ok _, h1, w1) =>
        if finished (response h1) then (Ok tt, h1, w1)
        else
          match for_each (body_chunks (request h1))
                  (FileHandler.data_received error_page) h1 w1 with
          | (Ok _, h2, w2) =>
              if body_complete (request h2)
              then catching error_page (call_method error_page) h2 w2
              else (Ok tt, h2, w2)
          | (Raise e, h2, w2) => (Raise e, h2, w2)
          end
    | (Raise e, h1, w1) => (Raise e, h1, w1)
    end.
Proof.
  intros Hsup. unfold execute, bind, read_self, ret. rewrite Hsup. simpl.
  destruct (catching _ _ h w) as [[[[]|e] h1] w1]; [|reflexivity].
  destruct (finished (response h1)); [reflexivity|].
  destruct (for_each _ _ h1 w1) as [[[[]|e] h2] w2]; [|reflexivity].
  destruct (body_complete (request h2)); reflexivity.
Qed.

(** C6: within a request, whatever the verb, every backend event -- the
    call and its settling -- precedes every event by which the response is
    built or sent; and when a backend call fails, nothing of a response
    came before, the only response is the error page with status 500, and
    it follows the failure. *)
Theorem backend_settles_before_response (req : Request) (w : World B) :
  exists out h' w' ext,
    handle_request auth_callback error_page req w = (out, h', w')
    /\ trace w' = trace w ++ ext
    /\ backend_before_response ext
    /\ failure_answered error_page ext (response h').
Proof.
  unfold handle_request.
  destruct (make_app (path_of_uri (uri req))) as [kwargs|] eqn:Happ.
  2: {
    unfold not_found, bind, read_self. rewrite handled_pending by reflexivity.
    eexists _, _, _, _. split; [reflexivity|]. split; [reflexivity|].
    split; [apply offline_ordered | apply offline_answered]; repeat constructor. }
  destruct (make_app_inv _ _ Happ) as (prefix & file_path & _ & Hprefix & Hpath).
  destruct (supported (method req)) eqn:Hsup.
  2: {
    unfold execute, bind, read_self. simpl. rewrite Hsup. simpl.
    rewrite handled_pending by reflexivity.
    eexists _, _, _, _. split; [reflexivity|]. split; [reflexivity|].
    split; [apply offline_ordered | apply offline_answered]; repeat constructor. }
  rewrite execute_supported by exact Hsup. unfold catching at 1.
  destruct (auth_callback (req_headers req !! "Authorization") prefix file_path
              (method req)) as [[granted|e] sent] eqn:Hcb.
  2: {
    rewrite (prepare_raised auth_callback error_page (new_handler req kwargs) w prefix file_path
               Hprefix Hpath e sent) by exact Hcb.
    rewrite handled_pending by reflexivity. simpl.
    eexists _, _, _, _. split; [reflexivity|]. split.
    { simpl. rewrite <- app_assoc. reflexivity. }
    split; [apply offline_ordered | apply offline_answered];
      (apply Forall_app; split; [apply fetches_offline | repeat constructor]). }
  destruct granted.
  2: {
    rewrite (prepare_denied auth_callback error_page (new_handler req kwargs) w prefix file_path
               Hprefix Hpath sent) by (try exact Hcb; reflexivity).
    simpl.
    eexists _, _, _, _. split; [reflexivity|]. split; [reflexivity|].
    split; [apply offline_ordered | apply offline_answered];
      (apply Forall_app; split; [apply fetches_offline | repeat constructor]). }
  rewrite (prepare_granted auth_callback error_page (new_handler req kwargs) w prefix file_path
             Hprefix Hpath sent) by exact Hcb.
  simpl. destruct (String.eqb (method req) "POST") eqn:Hpost; simpl.
  - erewrite deliver_granted by reflexivity. simpl.
    destruct (body_complete req).
    + edestruct (verb_method_ordered error_page) as (out & h' & w' & ext & -> & Ht & Hord & Hans);
        [ exact Hprefix | exact Hpath | reflexivity | reflexivity | | ].
      { intros _. eexists. split; reflexivity. }
      eexists _, _, _, _. split; [reflexivity|]. split.
      { rewrite Ht. simpl. rewrite <- !app_assoc. reflexivity. }
      simpl.
      assert (silent (map EvFetch sent ++ EvTempCreate (fresh (dom (disk w)))
                      :: map (EvTempWrite (fresh (dom (disk w)))) (body_chunks req))
              /\ offline (map EvFetch sent ++ EvTempCreate (fresh (dom (disk w)))
                          :: map (EvTempWrite (fresh (dom (disk w)))) (body_chunks req)))
        as [Hs Ho].
      { split; (apply Forall_app; split;
          [first [apply fetches_silent | apply fetches_offline]
          |constructor; [reflexivity
                        |first [apply temp_writes_silent | apply temp_writes_offline]]]). }
      pose proof (quiet_prefix_ordered _ _ Hs Hord) as Hord'.
      pose proof (quiet_prefix_answered error_page _ _ _ Hs Ho Hans) as Hans'.
      rewrite <- app_assoc in Hord', Hans'. simpl in Hord', Hans'.
      split; assumption.
    + eexists _, _, _, _. split; [reflexivity|]. split.
      { simpl. rewrite <- !app_assoc. reflexivity. }
      simpl.
      split; [apply offline_ordered | apply offline_answered];
        (apply Forall_app; split;
          [apply fetches_offline
          |constructor; [reflexivity | apply temp_writes_offline]]).
  - destruct (body_chunks req) as [|c chunks].
    + simpl. unfold ret. simpl.
      destruct (body_complete req).
      * edestruct (verb_method_ordered error_page) as (out & h' & w' & ext & -> & Ht & Hord & Hans);
          [ exact Hprefix | exact Hpath | reflexivity | reflexivity | | ].
        { simpl. rewrite Hpost. discriminate. }
        eexists _, _, _, _. split; [reflexivity|]. split.
        { rewrite Ht. simpl. rewrite <- !app_assoc. reflexivity. }
        split.
        -- apply quiet_prefix_ordered; [apply fetches_silent | exact Hord].
        -- apply quiet_prefix_answered;
             [apply fetches_silent | apply fetches_offline | exact Hans].
      * eexists _, _, _, _. split; [reflexivity|]. split; [reflexivity|].
        split; [apply offline_ordered | apply offline_answered]; apply fetches_offline.
    + rewrite deliver_no_handle by reflexivity.
      eexists _, _, _, _. split; [reflexivity|]. split; [reflexivity|].
      split; [apply offline_ordered | apply offline_answered]; apply fetches_offline.
Qed.
End RequestFacts.

(** ** Rejection *)

Section RejectionFacts.
Context {B : Type} {transfer : Transfer B}.
Variable auth_callback : AuthCallback.
Variable error_page : Z -> option string -> bytes.

Lemma chunk_rejected (chunk : bytes) (h : Self) (w : World B) :
  auth h <> Some true ->
  coherent (response h) ->
  exists h' w' ext,
    FileHandler.data_received error_page chunk h w = (Ok tt, h', w')
    /\ temp h' = temp h /\ auth h' = auth h /\ coherent (response h')
    /\ disk w' = disk w /\ backend w' = backend w
    /\ trace w' = trace w ++ EvSendError 500 None :: ext
    /\ Forall (fun e => temp_event e = false) ext
    /\ (headers_written (response h) = false ->
        response h' = error_response error_page 500 None).
Proof.
  intros Hauth Hco. rewrite data_received_rejects by exact Hauth.
  destruct (headers_written (response h)) eqn:Hw.
  - destruct (finished (response h)) eqn:Hf.
    + rewrite send_error_gone by assumption.
      eexists _, _, []. repeat split; try reflexivity; try assumption.
      * constructor.
      * discriminate.
    + run. rewrite Hw. simpl. rewrite Hf. simpl. rewrite Hf. simpl. tidy.
      eexists _, _, [EvFinish]. repeat split; try reflexivity.
      * repeat constructor.
      * discriminate.
  - assert (Hf : finished (response h) = false).
    { destruct (finished (response h)) eqn:Hf; [|reflexivity].
      specialize (Hco Hf). congruence. }
    rewrite send_error_pending by assumption.
    eexists _, _, _. repeat split; try reflexivity.
    repeat constructor.
Qed.

Lemma chunks_rejected (chunks : list bytes) (h : Self) (w : World B) :
  auth h <> Some true ->
  coherent (response h) ->
  exists h' w' ext,
    for_each chunks (FileHandler.data_received error_page) h w = (Ok tt, h', w')
    /\ temp h' = temp h /\ disk w' = disk w
    /\ trace w' = trace w ++ ext
    /\ Forall (fun e => temp_event e = false) ext.
Proof.
  revert h w. induction chunks as [|c chunks IH]; intros h w Hauth Hco.
  - exists h, w, []. simpl. unfold ret. rewrite app_nil_r.
    repeat split; constructor.
  - destruct (chunk_rejected c h w Hauth Hco)
      as (h1 & w1 & ext1 & Hrun & Ht1 & Ha1 & Hco1 & Hd1 & _ & Htr1 & Hq1 & _).
    destruct (IH h1 w1) as (h2 & w2 & ext2 & Hrun2 & Ht2 & Hd2 & Htr2 & Hq2);
      [congruence | exact Hco1 |].
    exists h2, w2, (EvSendError 500 None :: ext1 ++ ext2).
    simpl. unfold bind at 1. rewrite Hrun, Hrun2.
    split; [reflexivity|]. split; [congruence|]. split; [congruence|].
    split.
    + rewrite Htr2, Htr1, <- app_assoc. reflexivity.
    + constructor; [reflexivity|]. apply Forall_app; split; assumption.
Qed.

(** C2: a request whose authorization callback resolves to false is
    answered with 403 and nothing else happens: no upload file is created,
    whatever the verb, no body chunk is written anywhere, the disk and the
    backend are untouched.  And whenever [data_received] runs while
    [self.auth] is not true, it answers with the generic error
    ([send_error()], status 500 if nothing was sent before), returns, and
    writes nothing. *)
Theorem denied_request_gets_403 (req : Request) (w : World B)
    (prefix file_path : string) (sent : list HTTPRequest) :
  route_match (path_of_uri (uri req)) = Some (prefix, file_path) ->
  supported (method req) = true ->
  auth_callback (req_headers req !! "Authorization") prefix file_path (method req)
    = (Ok false, sent) ->
  (exists h' w',
     handle_request auth_callback error_page req w = (Ok tt, h', w')
     /\ response h' =
          error_response error_page 403 (Some "Not authorized for this prefix")
     /\ auth h' = Some false /\ temp h' = None
     /\ disk w' = disk w /\ backend w' = backend w
     /\ trace w' =
          trace w ++ map EvFetch sent
          ++ send_error_events error_page 403 (Some "Not authorized for this prefix"))
  /\ (forall (h : Self) (v : World B) (chunk : bytes),
        auth h <> Some true -> coherent (response h) ->
        exists h' v' ext,
          FileHandler.data_received error_page chunk h v = (Ok tt, h', v')
          /\ temp h' = temp h /\ disk v' = disk v
          /\ trace v' = trace v ++ EvSendError 500 None :: ext
          /\ Forall (fun e => temp_event e = false) ext
          /\ (headers_written (response h) = false ->
              response h' = error_response error_page 500 None)).
Proof.
  intros Hroute Hsup Hcb. split.
  - unfold handle_request.
    destruct (routed_kwargs _ _ _ Hroute) as (kwargs & -> & Hprefix & Hpath).
    rewrite execute_supported by exact Hsup. unfold catching.
    rewrite (prepare_denied auth_callback error_page (new_handler req kwargs) w
               prefix file_path Hprefix Hpath sent) by (try exact Hcb; reflexivity).
    simpl. eexists _, _. repeat split; reflexivity.
  - intros h v chunk Hauth Hco.
    destruct (chunk_rejected chunk h v Hauth Hco)
      as (h' & v' & ext & Hrun & Ht & _ & _ & Hd & _ & Htr & Hq & Hresp).
    exists h', v', ext. repeat split; assumption.
Qed.

(** C10: a chunk that arrives while [self.auth] is not true makes
    [data_received] send the generic error and return; it neither writes
    the chunk nor reads [self.temp], so it returns normally even though no
    upload handle exists, and so does any run of such chunks.  [prepare]
    creates the handle only once authorization has resolved to true. *)
Theorem unauthorized_chunk_never_touches_handle (h : Self) (w : World B) :
  auth h <> Some true ->
  coherent (response h) ->
  (forall chunk : bytes,
     exists h' w' ext,
       FileHandler.data_received error_page chunk h w = (Ok tt, h', w')
       /\ temp h' = temp h /\ disk w' = disk w
       /\ trace w' = trace w ++ EvSendError 500 None :: ext
       /\ Forall (fun e => temp_event e = false) ext)
  /\ (forall chunks : list bytes,
        temp h = None ->
        exists h' w' ext,
          for_each chunks (FileHandler.data_received error_page) h w = (Ok tt, h', w')
          /\ temp h' = None /\ disk w' = disk w
          /\ trace w' = trace w ++ ext
          /\ Forall (fun e => temp_event e = false) ext)
  /\ (forall (req : Request) (kwargs : gmap string string) (v : World B),
        let '(_, h', _) :=
          FileHandler.prepare auth_callback error_page (new_handler req kwargs) v in
        temp h' <> None -> auth h' = Some true).
Proof.
  intros Hauth Hco. split; [|split].
  - intros chunk.
    destruct (chunk_rejected chunk h w Hauth Hco)
      as (h' & w' & ext & Hrun & Ht & _ & _ & Hd & _ & Htr & Hq & _).
    exists h', w', ext. repeat split; assumption.
  - intros chunks Htemp.
    destruct (chunks_rejected chunks h w Hauth Hco)
      as (h' & w' & ext & Hrun & Ht & Hd & Htr & Hq).
    exists h', w', ext. repeat split; try assumption. congruence.
  - intros req kwargs v.
    unfold FileHandler.prepare, FileHandler.await_auth. run.
    destruct (kwargs !! "prefix") as [prefix|]; simpl.
    2: { intros Hne; destruct Hne; reflexivity. }
    destruct (kwargs !! "file_path") as [file_path|]; simpl.
    2: { intros Hne; destruct Hne; reflexivity. }
    destruct (auth_callback _ _ _ _) as [[[]|e] sent]; simpl.
    + destruct (String.eqb (method req) "POST"); simpl; reflexivity.
    + intros Hne; destruct Hne; reflexivity.
    + intros Hne; destruct Hne; reflexivity.
Qed.
End RejectionFacts.

(** ** The outbound authorization call *)



(** ** Uploads *)

Section UploadFacts.
Context {B : Type} {transfer : Transfer B}.
Variable auth_callback : AuthCallback.
Variable error_page : Z -> option string -> bytes.
Variables (req : Request) (w : World B) (prefix file_path : string).
Variable sent : list HTTPRequest.
Hypothesis Hroute : route_match (path_of_uri (uri req)) = Some (prefix, file_path).
Hypothesis Hpost : method req = "POST".
Hypothesis Hgranted :
  auth_callback (req_headers req !! "Authorization") prefix file_path "POST"
    = (Ok true, sent).

Let fname : string := fresh (dom (disk w)).
Let staged : StorageObject :=
  {| so_prefix := prefix; so_file_path := file_path;
     so_etag := None; so_local_file := Some fname |}.




End UploadFacts.

(** ** Deletion *)


(** ** Routing *)














(** ** The properties at work on the example requests *)

Lemma denied_request_gets_403_witness :
  route_match (path_of_uri (uri post_doc1)) = Some ("test", "doc1")
  /\ supported (method post_doc1) = true
  /\ remote_auth net_denies (req_headers post_doc1 !! "Authorization")
       "test" "doc1" (method post_doc1)
     = (Ok false, [auth_request default_options (Some "Token abc") "test" "doc1" "POST"])
  /\ exists h' w',
       handle_request (remote_auth net_denies) plain_error_page post_doc1
         (empty_world mem_empty) = (Ok tt, h', w')
       /\ status_code (response h') = 403
       /\ temp h' = None
       /\ disk w' = ∅.
Proof.
  split; [reflexivity|]. split; [reflexivity|]. split; [reflexivity|].
  destruct (denied_request_gets_403 (remote_auth net_denies) plain_error_page
              post_doc1 (empty_world mem_empty) "test" "doc1"
              [auth_request default_options (Some "Token abc") "test" "doc1" "POST"]
              eq_refl eq_refl eq_refl)
    as [(h' & w' & Hrun & Hresp & _ & Htemp & Hdisk & _) _].
  exists h', w'. split; [exact Hrun|]. split; [rewrite Hresp; reflexivity|].
  split; [exact Htemp | exact Hdisk].
Defined.


Lemma unauthorized_chunk_never_touches_handle_witness :
  auth (new_handler post_doc1 doc1_kwargs) <> Some true
  /\ coherent (response (new_handler post_doc1 doc1_kwargs))
  /\ exists h' w' ext,
       for_each [hello; hello] (FileHandler.data_received plain_error_page)
         (new_handler post_doc1 doc1_kwargs) (empty_world mem_empty)
       = (Ok tt, h', w')
       /\ temp h' = None /\ disk w' = ∅
       /\ trace w' = ext
       /\ Forall (fun e => temp_event e = false) ext.
Proof.
  assert (Hauth : auth (new_handler post_doc1 doc1_kwargs) <> Some true)
    by discriminate.
  assert (Hco : coherent (response (new_handler post_doc1 doc1_kwargs)))
    by (intros H; discriminate H).
  split; [exact Hauth|]. split; [exact Hco|].
  destruct (unauthorized_chunk_never_touches_handle (remote_auth net_denies)
              plain_error_page (new_handler post_doc1 doc1_kwargs)
              (empty_world mem_empty) Hauth Hco) as (_ & Hrun & _).
  destruct (Hrun [hello; hello] eq_refl) as (h' & w' & ext & Heq & Ht & Hd & Htr & Hq).
  exists h', w', ext. repeat split; assumption.
Defined.





(** ** Worked examples *)

(** Only 204 counts: a plain 200 from the accounting service is a denial,
    and so is a service that cannot be reached. *)
Example remote_check_examples :
  fst (remote_auth net_grants (Some "Token abc") "test" "doc1" "GET") = Ok true
  /\ fst (remote_auth net_ok_200 (Some "Token abc") "test" "doc1" "GET") = Ok false
  /\ fst (remote_auth net_denies None "test" "doc1" "DELETE") = Ok false
  /\ fst (remote_auth net_down (Some "Token abc") "test" "doc1" "POST") = Ok false.
Proof. repeat split. Qed.

(** The static check wants the magic token and the prefix [test]. *)
Example dummy_auth_examples :
  fst (dummy_auth default_options (Some "Token MAGICFARYDUST") "test" "doc1" "GET")
    = Ok true
  /\ fst (dummy_auth default_options (Some "Token MAGICFARYDUST") "prod" "doc1" "GET")
     = Ok false
  /\ fst (dummy_auth default_options None "test" "doc1" "GET") = Ok false.
Proof. repeat split. Qed.

(** Reading in chunks of three. *)
Example read_chunks_example :
  read_chunks 3 hello = [list_byte_of_string "hel"; list_byte_of_string "lo"]
  /\ read_chunks 5 hello = [hello]
  /\ read_chunks 3 [] = [].
Proof. repeat split. Qed.

(** Store, fetch, fetch again with the etag, delete, fetch: 204 with
    [ETag: e1]; 200 with the body and the etag; 304 without body; 204; 404. *)
Example round_trip :
  let after_post := serve net_grants post_doc1 (empty_world mem_empty) in
  let after_get := serve net_grants get_doc1 (snd after_post) in
  let after_get_if := serve net_grants (get_doc1_if "e1") (snd after_post) in
  let after_delete := serve net_grants delete_doc1 (snd after_post) in
  let after_last_get := serve net_grants get_doc1 (snd after_delete) in
  (status_code (response (fst after_post)) = 204
   /\ headers (response (fst after_post)) !! "ETag" = Some "e1"
   /\ write_buffer (response (fst after_post)) = [])
  /\ (status_code (response (fst after_get)) = 200
      /\ headers (response (fst after_get)) !! "ETag" = Some "e1"
      /\ concat (write_buffer (response (fst after_get))) = hello)
  /\ (status_code (response (fst after_get_if)) = 304
      /\ write_buffer (response (fst after_get_if)) = [])
  /\ status_code (response (fst after_delete)) = 204
  /\ status_code (response (fst after_last_get)) = 404.
Proof. vm_compute. repeat split. Qed.

(** With the backend down every verb ends in 500, sent after the failure. *)
Example backend_down :
  status_code (response (fst (serve net_grants post_doc1 (empty_world down)))) = 500
  /\ status_code (response (fst (serve net_grants get_doc1 (empty_world down)))) = 500
  /\ status_code (response (fst (serve net_grants delete_doc1 (empty_world down)))) = 500.
Proof. vm_compute. repeat split. Qed.

(** Deleting what is not there is answered exactly like deleting what is. *)
Example delete_absent_object :
  response (fst (serve net_grants delete_doc1 (empty_world mem_empty)))
  = response (fst (serve net_grants delete_doc1 stocked_world))
  /\ status_code (response (fst (serve net_grants delete_doc1 (empty_world mem_empty))))
     = 204.
Proof. vm_compute. repeat split. Qed.

(** * Further properties *)

(** ** The authorization strategies *)

Lemma opt_eqb_eq (a : option string) (b : string) :
  opt_eqb a b = true <-> a = Some b.
Proof.
  destruct a as [s|]; simpl.
  - rewrite String.eqb_eq. split; [intros ->; reflexivity | intros [= ->]; reflexivity].
  - split; discriminate.
Qed.

Lemma static_check_iff (credential : option string) (magic prefix : string) :
  opt_eqb credential magic && String.eqb prefix "test" = true
  <-> credential = Some magic /\ prefix = "test".
Proof. rewrite andb_true_iff, opt_eqb_eq, String.eqb_eq. reflexivity. Qed.

(** X1: with [noauth] set, [check_auth] lets every request through without
    asking anybody: [prepare] sets [self.auth] to true whatever the
    credential (also a missing one), the prefix, the verb, the accounting
    server and the [dummy_auth] flag, sends no outbound request and leaves
    the response untouched. *)
Theorem noauth_grants_without_asking {B : Type}
    (options : Options) (net : HTTPRequest -> NetResult)
    (error_page : Z -> option string -> bytes)
    (req : Request) (kwargs : gmap string string) (w : World B)
    (prefix file_path : string) :
  opt_noauth options = true ->
  kwargs !! "prefix" = Some prefix ->
  kwargs !! "file_path" = Some file_path ->
  let '(out, h', w') :=
    FileHandler.prepare (check_auth options net) error_page (new_handler req kwargs) w in
  out = Ok tt /\ auth h' = Some true /\ response h' = new_response
  /\ exists ext, trace w' = trace w ++ ext /\ fetch_free ext /\ silent ext.
Proof.
  intros Hno Hprefix Hpath.
  assert (Hcb : check_auth options net (req_headers req !! "Authorization")
                  prefix file_path (method req) = (Ok true, []))
    by (unfold check_auth; rewrite Hno; reflexivity).
  rewrite (prepare_granted (check_auth options net) error_page
             (new_handler req kwargs) w prefix file_path Hprefix Hpath _ Hcb).
  simpl. destruct (String.eqb (method req) "POST"); simpl.
  - repeat split. eexists. split; [reflexivity|]. split; repeat constructor.
  - repeat split. exists []. split; [reflexivity|]. split; constructor.
Qed.

Lemma noauth_grants_without_asking_witness :
  opt_noauth noauth_options = true
  /\ doc1_kwargs !! "prefix" = Some "test"
  /\ doc1_kwargs !! "file_path" = Some "doc1"
  /\ let '(out, h', w') :=
       FileHandler.prepare (check_auth noauth_options net_down) plain_error_page
         (new_handler (example_request "DELETE" "/api/v0/files/test/doc1" ∅ [] true)
            doc1_kwargs)
         (empty_world mem_empty) in
     out = Ok tt /\ auth h' = Some true /\ response h' = new_response
     /\ exists ext, trace w' = ext /\ fetch_free ext /\ silent ext.
Proof.
  split; [reflexivity|]. split; [reflexivity|]. split; [reflexivity|].
  pose proof (noauth_grants_without_asking noauth_options net_down plain_error_page
                (example_request "DELETE" "/api/v0/files/test/doc1" ∅ [] true)
                doc1_kwargs (empty_world mem_empty) "test" "doc1"
                eq_refl eq_refl eq_refl) as H.
  vm_compute in H. vm_compute. exact H.
Defined.

(** X2: with [dummy_auth] set and [noauth] not, [check_auth] decides on the
    spot: [prepare] grants exactly when the [Authorization] header equals the
    configured magic token and the prefix is [test] -- the path and the verb
    play no part -- answers 403 otherwise, and never sends an outbound
    request, whatever the accounting server would say. *)
Theorem static_check_decides_locally {B : Type}
    (options : Options) (net : HTTPRequest -> NetResult)
    (error_page : Z -> option string -> bytes)
    (req : Request) (kwargs : gmap string string) (w : World B)
    (prefix file_path : string) :
  opt_noauth options = false ->
  opt_dummy_auth options = true ->
  kwargs !! "prefix" = Some prefix ->
  kwargs !! "file_path" = Some file_path ->
  let '(out, h', w') :=
    FileHandler.prepare (check_auth options net) error_page (new_handler req kwargs) w in
  out = Ok tt
  /\ (auth h' = Some true <->
      req_headers req !! "Authorization" = Some (opt_magicauth options)
      /\ prefix = "test")
  /\ (auth h' <> Some true ->
      auth h' = Some false
      /\ response h' =
           error_response error_page 403 (Some "Not authorized for this prefix"))
  /\ exists ext, trace w' = trace w ++ ext /\ fetch_free ext.
Proof.
  intros Hno Hdummy Hprefix Hpath.
  pose proof (static_check_iff (req_headers req !! "Authorization")
                (opt_magicauth options) prefix) as Hiff.
  assert (Hcb : check_auth options net (req_headers req !! "Authorization")
                  prefix file_path (method req)
                = (Ok (opt_eqb (req_headers req !! "Authorization")
                         (opt_magicauth options) && String.eqb prefix "test"), []))
    by (unfold check_auth; rewrite Hno, Hdummy; reflexivity).
  destruct (opt_eqb _ _ && String.eqb prefix "test").
  - rewrite (prepare_granted (check_auth options net) error_page
               (new_handler req kwargs) w prefix file_path Hprefix Hpath _ Hcb).
    simpl. destruct (String.eqb (method req) "POST"); simpl.
    + split; [reflexivity|]. split; [split; [intros _; apply Hiff | ]; reflexivity|].
      split; [intros Hne; destruct Hne; reflexivity|].
      eexists. split; [reflexivity|]. repeat constructor.
    + split; [reflexivity|]. split; [split; [intros _; apply Hiff | ]; reflexivity|].
      split; [intros Hne; destruct Hne; reflexivity|].
      exists []. split; [reflexivity | constructor].
  - rewrite (prepare_denied (check_auth options net) error_page
               (new_handler req kwargs) w prefix file_path Hprefix Hpath _ Hcb)
      by reflexivity.
    simpl. split; [reflexivity|]. split.
    { split; [discriminate|]. intros H. apply Hiff in H. discriminate. }
    split; [intros _; split; reflexivity|].
    eexists. split; [reflexivity|]. repeat constructor.
Qed.

Lemma static_check_decides_locally_witness :
  opt_noauth static_options = false
  /\ opt_dummy_auth static_options = true
  /\ doc1_kwargs !! "prefix" = Some "test"
  /\ doc1_kwargs !! "file_path" = Some "doc1"
  /\ let '(out, h', w') :=
       FileHandler.prepare (check_auth static_options net_grants) plain_error_page
         (new_handler get_doc1 doc1_kwargs) (empty_world mem_empty) in
     out = Ok tt /\ auth h' = Some false /\ status_code (response h') = 403
     /\ fetch_free (trace w').
Proof.
  split; [reflexivity|]. split; [reflexivity|].
  split; [reflexivity|]. split; [reflexivity|].
  pose proof (static_check_decides_locally static_options net_grants plain_error_page
                get_doc1 doc1_kwargs (empty_world mem_empty) "test" "doc1"
                eq_refl eq_refl eq_refl eq_refl) as H.
  destruct (FileHandler.prepare _ _ _ _) as [[out h'] w'] eqn:Hrun.
  vm_compute in Hrun. injection Hrun as <- <- <-.
  destruct H as (Hout & _ & Hdenied & ext & Htrace & Hfree).
  destruct Hdenied as [Hauth Hresp]; [discriminate|].
  split; [exact Hout|]. split; [exact Hauth|]. split; [rewrite Hresp; reflexivity|].
  rewrite Htrace. exact Hfree.
Defined.

Section StrategyFacts.
Context {B : Type} {transfer : Transfer B}.
Variable error_page : Z -> option string -> bytes.

(** X3: [main] picks the callback by the [dummy] flag, the one that also
    picks the dummy backend: with [dummy] set the static check is installed,
    so [noauth] and the accounting server count for nothing, and a request
    whose credential is not the magic token, or whose prefix is not [test],
    is answered 403 with no outbound request and no backend call. *)
Theorem dummy_flag_installs_static_check (options : Options)
    (net : HTTPRequest -> NetResult) (req : Request) (w : World B)
    (prefix file_path : string) :
  opt_dummy options = true ->
  route_match (path_of_uri (uri req)) = Some (prefix, file_path) ->
  supported (method req) = true ->
  req_headers req !! "Authorization" <> Some (opt_magicauth options)
  \/ prefix <> "test" ->
  exists h' w',
    handle_request (main_auth_callback options net) error_page req w = (Ok tt, h', w')
    /\ response h' =
         error_response error_page 403 (Some "Not authorized for this prefix")
    /\ auth h' = Some false
    /\ disk w' = disk w /\ backend w' = backend w
    /\ trace w' =
         trace w ++ send_error_events error_page 403
                      (Some "Not authorized for this prefix").
Proof.
  intros Hdummy Hroute Hsup Hwrong.
  assert (Hcb : main_auth_callback options net (req_headers req !! "Authorization")
                  prefix file_path (method req) = (Ok false, [])).
  { unfold main_auth_callback. rewrite Hdummy. unfold dummy_auth. f_equal. f_equal.
    destruct (opt_eqb _ _ && String.eqb prefix "test") eqn:Hgranted; [|reflexivity].
    apply static_check_iff in Hgranted as [Hcred Hpre].
    destruct Hwrong as [Hwrong|Hwrong]; contradiction. }
  unfold handle_request.
  destruct (routed_kwargs _ _ _ Hroute) as (kwargs & -> & Hprefix & Hpath).
  rewrite execute_supported by exact Hsup. unfold catching.
  rewrite (prepare_denied (main_auth_callback options net) error_page
             (new_handler req kwargs) w prefix file_path Hprefix Hpath [])
    by (try exact Hcb; reflexivity).
  simpl. eexists _, _. repeat split; reflexivity.
Qed.


(** X5: a request that is granted access, is not a POST and yet delivers a
    body chunk dies in [data_received]: [self.temp] does not exist, so the
    write raises [AttributeError]; the verb's method is never called, no
    backend call is made and no response is written. *)
Theorem body_on_other_verb_raises (auth_callback : AuthCallback)
    (req : Request) (w : World B) (prefix file_path : string)
    (sent : list HTTPRequest) (chunk : bytes) (chunks : list bytes) :
  route_match (path_of_uri (uri req)) = Some (prefix, file_path) ->
  supported (method req) = true ->
  String.eqb (method req) "POST" = false ->
  auth_callback (req_headers req !! "Authorization") prefix file_path (method req)
    = (Ok true, sent) ->
  body_chunks req = chunk :: chunks ->
  exists h' w',
    handle_request auth_callback error_page req w
      = (Raise (AttributeError "temp"), h', w')
    /\ auth h' = Some true /\ temp h' = None
    /\ response h' = new_response
    /\ disk w' = disk w /\ backend w' = backend w
    /\ trace w' = trace w ++ map EvFetch sent.
Proof.
  intros Hroute Hsup Hother Hcb Hbody. unfold handle_request.
  destruct (routed_kwargs _ _ _ Hroute) as (kwargs & -> & Hprefix & Hpath).
  rewrite execute_supported by exact Hsup. unfold catching.
  rewrite (prepare_granted auth_callback error_page (new_handler req kwargs) w
             prefix file_path Hprefix Hpath sent) by exact Hcb.
  simpl. rewrite Hother. simpl. rewrite Hbody.
  rewrite deliver_no_handle by reflexivity.
  eexists _, _. repeat split; reflexivity.
Qed.
End StrategyFacts.

Lemma dummy_flag_installs_static_check_witness :
  opt_dummy dummy_noauth_options = true
  /\ opt_noauth dummy_noauth_options = true
  /\ route_match (path_of_uri (uri get_doc1)) = Some ("test", "doc1")
  /\ supported (method get_doc1) = true
  /\ (req_headers get_doc1 !! "Authorization"
        <> Some (opt_magicauth dummy_noauth_options)
      \/ "test" <> "test")
  /\ exists h' w',
       handle_request (main_auth_callback dummy_noauth_options net_grants)
         plain_error_page get_doc1 stocked_world = (Ok tt, h', w')
       /\ status_code (response h') = 403
       /\ backend w' = backend stocked_world.
Proof.
  assert (Hwrong : req_headers get_doc1 !! "Authorization"
                     <> Some (opt_magicauth dummy_noauth_options)
                   \/ "test" <> "test")
    by (left; vm_compute; discriminate).
  split; [reflexivity|]. split; [reflexivity|]. split; [reflexivity|].
  split; [reflexivity|]. split; [exact Hwrong|].
  destruct (dummy_flag_installs_static_check plain_error_page dummy_noauth_options
              net_grants get_doc1 stocked_world "test" "doc1"
              eq_refl eq_refl eq_refl Hwrong)
    as (h' & w' & Hrun & Hresp & _ & _ & Hback & _).
  exists h', w'. split; [exact Hrun|]. split; [rewrite Hresp; reflexivity | exact Hback].
Defined.


Lemma body_on_other_verb_raises_witness :
  route_match (path_of_uri (uri get_with_body)) = Some ("test", "doc1")
  /\ supported (method get_with_body) = true
  /\ String.eqb (method get_with_body) "POST" = false
  /\ remote_auth net_grants (req_headers get_with_body !! "Authorization")
       "test" "doc1" (method get_with_body)
     = (Ok true, [auth_request default_options (Some "Token abc") "test" "doc1" "GET"])
  /\ body_chunks get_with_body = [hello]
  /\ exists h' w',
       handle_request (remote_auth net_grants) plain_error_page get_with_body
         stocked_world = (Raise (AttributeError "temp"), h', w')
       /\ response h' = new_response
       /\ backend w' = backend stocked_world.
Proof.
  split; [reflexivity|]. split; [reflexivity|]. split; [reflexivity|].
  split; [reflexivity|]. split; [reflexivity|].
  destruct (body_on_other_verb_raises plain_error_page (remote_auth net_grants)
              get_with_body stocked_world "test" "doc1"
              [auth_request default_options (Some "Token abc") "test" "doc1" "GET"]
              hello [] eq_refl eq_refl eq_refl eq_refl eq_refl)
    as (h' & w' & Hrun & _ & _ & Hresp & _ & Hback & _).
  exists h', w'. repeat split; assumption.
Defined.

(** ** The shape of a request's trace *)

Lemma one_call_around (pre : list Event) (op : BackendOp) (o : StorageObject)
    (ok : bool) (post : list Event) :
  offline pre -> offline post ->
  one_call (pre ++ EvBackendCall op o :: EvBackendDone op ok :: post).
Proof. intros Hpre Hpost. right. exists pre, op, o, ok, post. auto. Qed.

Lemma one_call_after (quiet t : list Event) :
  offline quiet -> one_call t -> one_call (quiet ++ t).
Proof.
  intros Hq [Hoff | (pre & op & o & ok & post & -> & Hpre & Hpost)].
  - left. apply Forall_app; split; assumption.
  - right. exists (quiet ++ pre), op, o, ok, post. rewrite <- app_assoc.
    split; [reflexivity|]. split; [apply Forall_app; split; assumption | exact Hpost].
Qed.

Lemma writes_handle_free (chunks : list bytes) : handle_free (map EvWrite chunks).
Proof. induction chunks; constructor; [reflexivity | assumption]. Qed.

Lemma fetches_handle_free (sent : list HTTPRequest) : handle_free (map EvFetch sent).
Proof. induction sent; constructor; [reflexivity | assumption]. Qed.

Section ShapeFacts.
Context {B : Type} {transfer : Transfer B}.
Variable auth_callback : AuthCallback.
Variable error_page : Z -> option string -> bytes.

(** The verb's method under the framework's exception handler: it always
    ends with a finished response, after at most one backend call. *)
Lemma verb_method_shape (h : Self) (w : World B) (prefix file_path : string) :
  path_kwargs h !! "prefix" = Some prefix ->
  path_kwargs h !! "file_path" = Some file_path ->
  headers_written (response h) = false ->
  finished (response h) = false ->
  (String.eqb (method (request h)) "POST" = true ->
   exists t, temp h = Some t /\ closed t = false) ->
  exists h' w' ext,
    catching error_page (call_method error_page) h w = (Ok tt, h', w')
    /\ trace w' = trace w ++ ext
    /\ finished (response h') = true
    /\ one_call ext
    /\ (String.eqb (method (request h)) "POST" = false -> handle_free ext).
Proof.
  intros Hprefix Hpath Hw Hf Hpost.
  unfold catching, call_method, bind, read_self. rewrite Hprefix, Hpath.
  destruct (String.eqb (method (request h)) "GET") eqn:Hget.
  { set (wanted := {| so_prefix := prefix; so_file_path := file_path;
                      so_etag := req_headers (request h) !! "If-None-Match";
                      so_local_file := None |}).
    destruct (transfer_retrieve wanted (backend w) (disk w))
      as [[settled b'] d'] eqn:Hcall.
    destruct settled as [[receipt|]|what].
    - destruct (local_file receipt) as [path|] eqn:Hlocal.
      + destruct (d' !! path) as [payload|] eqn:Hdisk.
        * rewrite (get_streams error_page h w prefix file_path receipt path payload b' d')
            by assumption.
          eexists _, _, _. split; [reflexivity|]. split; [reflexivity|].
          split; [reflexivity|]. split.
          -- apply (one_call_around [] OpRetrieve wanted true); [constructor|].
             constructor; [reflexivity|]. constructor; [reflexivity|].
             apply Forall_app; split; [apply writes_offline | repeat constructor].
          -- intros _. do 4 (constructor; [reflexivity|]).
             apply Forall_app; split; [apply writes_handle_free | repeat constructor].
        * destruct (get_lost error_page h w prefix file_path receipt path b' d'
                      Hcall Hlocal Hdisk) as (h1 & -> & Hw1 & Hf1).
          rewrite handled_pending by congruence. simpl.
          eexists _, _, _. split; [reflexivity|]. split.
          { simpl. rewrite <- app_assoc. reflexivity. }
          split; [reflexivity|]. split.
          -- apply (one_call_around [] OpRetrieve wanted true); repeat constructor.
          -- intros _. repeat constructor.
      + rewrite (get_not_modified error_page h w prefix file_path receipt b' d')
          by assumption.
        eexists _, _, _. split; [reflexivity|]. split; [reflexivity|].
        split; [reflexivity|]. split.
        * apply (one_call_around [] OpRetrieve wanted true); repeat constructor.
        * intros _. repeat constructor.
    - rewrite (get_missing error_page h w prefix file_path b' d') by assumption.
      eexists _, _, _. split; [reflexivity|]. split; [reflexivity|].
      split; [reflexivity|]. split.
      + apply (one_call_around [] OpRetrieve wanted true); repeat constructor.
      + intros _. repeat constructor.
    - rewrite (get_failed error_page h w prefix file_path what b' d') by assumption.
      rewrite handled_pending by assumption. simpl.
      eexists _, _, _. split; [reflexivity|]. split.
      { simpl. rewrite <- app_assoc. reflexivity. }
      split; [reflexivity|]. split.
      + apply (one_call_around [] OpRetrieve wanted false); repeat constructor.
      + intros _. repeat constructor. }
  destruct (String.eqb (method (request h)) "POST") eqn:Hispost.
  { destruct (Hpost eq_refl) as (t & Ht & Hopen).
    set (staged := {| so_prefix := prefix; so_file_path := file_path;
                      so_etag := None; so_local_file := Some (name t) |}).
    set (flushed := alter (fun content => content ++ buffered t) (name t) (disk w)).
    destruct (transfer_store staged (backend w) flushed)
      as [[settled b'] d'] eqn:Hcall.
    destruct settled as [receipt|what].
    - rewrite (post_stored h w prefix file_path t Ht Hopen receipt b' d') by assumption.
      eexists _, _, _. split; [reflexivity|]. split; [reflexivity|].
      split; [reflexivity|]. split; [|discriminate].
      apply (one_call_around [EvTempClose (name t)] OpStore staged true);
        repeat constructor.
    - rewrite (post_failed h w prefix file_path t Ht Hopen what b' d') by assumption.
      rewrite handled_pending by assumption. simpl.
      eexists _, _, _. split; [reflexivity|]. split.
      { simpl. rewrite <- app_assoc. reflexivity. }
      split; [reflexivity|]. split; [|discriminate].
      apply (one_call_around [EvTempClose (name t)] OpStore staged false);
        repeat constructor. }
  destruct (String.eqb (method (request h)) "DELETE") eqn:Hdel.
  { set (doomed := {| so_prefix := prefix; so_file_path := file_path;
                      so_etag := None; so_local_file := None |}).
    destruct (transfer_delete doomed (backend w) (disk w))
      as [[settled b'] d'] eqn:Hcall.
    destruct settled as [[]|what].
    - rewrite (delete_done h w prefix file_path b' d') by assumption.
      eexists _, _, _. split; [reflexivity|]. split; [reflexivity|].
      split; [reflexivity|]. split.
      + apply (one_call_around [] OpDelete doomed true); repeat constructor.
      + intros _. repeat constructor.
    - rewrite (delete_failed h w prefix file_path what b' d') by assumption.
      rewrite handled_pending by assumption. simpl.
      eexists _, _, _. split; [reflexivity|]. split.
      { simpl. rewrite <- app_assoc. reflexivity. }
      split; [reflexivity|]. split.
      + apply (one_call_around [] OpDelete doomed false); repeat constructor.
      + intros _. repeat constructor. }
  unfold raise. rewrite handled_pending by assumption. simpl.
  eexists _, _, _. split; [reflexivity|]. split; [reflexivity|].
  split; [reflexivity|]. split.
  - left. repeat constructor.
  - intros _. repeat constructor.
Qed.
End ShapeFacts.

Section RequestShape.
Context {B : Type} {transfer : Transfer B}.
Variable auth_callback : AuthCallback.
Variable error_page : Z -> option string -> bytes.

Lemma request_shape (req : Request) (w : World B) :
  exists out h' w' ext,
    handle_request auth_callback error_page req w = (out, h', w')
    /\ trace w' = trace w ++ ext
    /\ one_call ext
    /\ (String.eqb (method req) "POST" = false -> handle_free ext)
    /\ match out with
       | Ok _ => body_complete req = true -> finished (response h') = true
       | Raise e =>
           e = AttributeError "temp"
           /\ String.eqb (method req) "POST" = false
           /\ body_chunks req <> []
           /\ finished (response h') = false
       end.
Proof.
  unfold handle_request.
  destruct (make_app (path_of_uri (uri req))) as [kwargs|] eqn:Happ.
  2: {
    unfold not_found, bind, read_self. rewrite handled_pending by reflexivity.
    eexists _, _, _, _. split; [reflexivity|]. split; [reflexivity|].
    split; [left; repeat constructor|]. split; [intros _; repeat constructor|].
    intros _; reflexivity. }
  destruct (make_app_inv _ _ Happ) as (prefix & file_path & _ & Hprefix & Hpath).
  destruct (supported (method req)) eqn:Hsup.
  2: {
    unfold execute, bind, read_self. simpl. rewrite Hsup. simpl.
    rewrite handled_pending by reflexivity.
    eexists _, _, _, _. split; [reflexivity|]. split; [reflexivity|].
    split; [left; repeat constructor|]. split; [intros _; repeat constructor|].
    intros _; reflexivity. }
  rewrite execute_supported by exact Hsup. unfold catching at 1.
  destruct (auth_callback (req_headers req !! "Authorization") prefix file_path
              (method req)) as [[granted|e] sent] eqn:Hcb.
  2: {
    rewrite (prepare_raised auth_callback error_page (new_handler req kwargs) w
               prefix file_path Hprefix Hpath e sent) by exact Hcb.
    rewrite handled_pending by reflexivity. simpl.
    eexists _, _, _, _. split; [reflexivity|]. split.
    { simpl. rewrite <- app_assoc. reflexivity. }
    split; [left; apply Forall_app; split; [apply fetches_offline | repeat constructor]|].
    split; [intros _; apply Forall_app; split;
              [apply fetches_handle_free | repeat constructor]|].
    intros _; reflexivity. }
  destruct granted.
  2: {
    rewrite (prepare_denied auth_callback error_page (new_handler req kwargs) w
               prefix file_path Hprefix Hpath sent) by (try exact Hcb; reflexivity).
    simpl.
    eexists _, _, _, _. split; [reflexivity|]. split; [reflexivity|].
    split; [left; apply Forall_app; split; [apply fetches_offline | repeat constructor]|].
    split; [intros _; apply Forall_app; split;
              [apply fetches_handle_free | repeat constructor]|].
    intros _; reflexivity. }
  rewrite (prepare_granted auth_callback error_page (new_handler req kwargs) w
             prefix file_path Hprefix Hpath sent) by exact Hcb.
  simpl. destruct (String.eqb (method req) "POST") eqn:Hpost; simpl.
  - erewrite deliver_granted by reflexivity. simpl.
    destruct (body_complete req).
    + edestruct (verb_method_shape error_page)
        as (h' & w' & ext & -> & Ht & Hfin & Hone & _);
        [ exact Hprefix | exact Hpath | reflexivity | reflexivity | | ].
      { intros _. eexists. split; reflexivity. }
      eexists _, _, _, _. split; [reflexivity|]. split.
      { rewrite Ht. simpl. rewrite <- !app_assoc. reflexivity. }
      split; [|split; [discriminate | intros _; exact Hfin]].
      assert (Hquiet : offline (map EvFetch sent ++ EvTempCreate (fresh (dom (disk w)))
                        :: map (EvTempWrite (fresh (dom (disk w)))) (body_chunks req))).
      { apply Forall_app; split; [apply fetches_offline|].
        constructor; [reflexivity | apply temp_writes_offline]. }
      pose proof (one_call_after _ _ Hquiet Hone) as Hone'.
      rewrite <- app_assoc in Hone'. exact Hone'.
    + eexists _, _, _, _. split; [reflexivity|]. split.
      { simpl. rewrite <- !app_assoc. reflexivity. }
      split; [|split; discriminate].
      left. apply Forall_app; split; [apply fetches_offline|].
      constructor; [reflexivity | apply temp_writes_offline].
  - destruct (body_chunks req) as [|c chunks].
    + simpl. unfold ret. simpl.
      destruct (body_complete req).
      * edestruct (verb_method_shape error_page)
          as (h' & w' & ext & -> & Ht & Hfin & Hone & Hfree);
          [ exact Hprefix | exact Hpath | reflexivity | reflexivity | | ].
        { simpl. rewrite Hpost. discriminate. }
        eexists _, _, _, _. split; [reflexivity|]. split.
        { rewrite Ht. simpl. rewrite <- !app_assoc. reflexivity. }
        split; [apply one_call_after; [apply fetches_offline | exact Hone]|].
        split; [|intros _; exact Hfin].
        intros _. apply Forall_app; split; [apply fetches_handle_free|].
        apply Hfree. simpl. exact Hpost.
      * eexists _, _, _, _. split; [reflexivity|]. split; [reflexivity|].
        split; [left; apply fetches_offline|].
        split; [intros _; apply fetches_handle_free | discriminate].
    + rewrite deliver_no_handle by reflexivity.
      eexists _, _, _, _. split; [reflexivity|]. split; [reflexivity|].
      split; [left; apply fetches_offline|].
      split; [intros _; apply fetches_handle_free|].
      repeat split. discriminate.
Qed.

(** X6: a request makes at most one backend call, whatever its verb, its
    route, the callback's answer and the backend; and where it makes one,
    the trace shows the call's settling right behind the call, with no
    other event in between. *)
Theorem one_backend_call_per_request (req : Request) (w : World B) :
  exists out h' w' ext,
    handle_request auth_callback error_page req w = (out, h', w')
    /\ trace w' = trace w ++ ext
    /\ one_call ext.
Proof.
  destruct (request_shape req w) as (out & h' & w' & ext & Hrun & Ht & Hone & _).
  exists out, h', w', ext. auto.
Qed.

(** X7: only a POST ever opens an upload handle: for every request with
    another verb -- granted or not, with or without a body -- no upload file
    is created, written or closed. *)
Theorem only_post_opens_upload_handle (req : Request) (w : World B) :
  String.eqb (method req) "POST" = false ->
  exists out h' w' ext,
    handle_request auth_callback error_page req w = (out, h', w')
    /\ trace w' = trace w ++ ext
    /\ handle_free ext.
Proof.
  intros Hother.
  destruct (request_shape req w) as (out & h' & w' & ext & Hrun & Ht & _ & Hfree & _).
  exists out, h', w', ext. auto.
Qed.

End RequestShape.

Lemma only_post_opens_upload_handle_witness :
  String.eqb (method get_with_body) "POST" = false
  /\ exists out h' w',
       handle_request (remote_auth net_grants) plain_error_page get_with_body
         (empty_world mem_empty) = (out, h', w')
       /\ handle_free (trace w').
Proof.
  split; [reflexivity|].
  destruct (only_post_opens_upload_handle (remote_auth net_grants) plain_error_page
              get_with_body (empty_world mem_empty) eq_refl)
    as (out & h' & w' & ext & Hrun & Ht & Hfree).
  exists out, h', w'. split; [exact Hrun|]. rewrite Ht. exact Hfree.
Defined.

(** ** Downloads *)

Lemma chunk_count_step (size len : nat) :
  (0 < size)%nat -> (0 < len)%nat ->
  chunk_count size len = S (chunk_count size (len - size)).
Proof.
  intros Hsize Hlen. unfold chunk_count.
  replace (len + size - 1)%nat with ((len - 1) + 1 * size)%nat by lia.
  rewrite Nat.div_add by lia.
  destruct (le_lt_dec len size) as [Hshort|Hlong].
  - replace (len - size + size - 1)%nat with (size - 1)%nat by lia.
    rewrite !Nat.div_small by lia. reflexivity.
  - replace (len - size + size - 1)%nat with (len - 1)%nat by lia. lia.
Qed.

Lemma read_loop_length (size fuel : nat) (data : bytes) :
  (0 < size)%nat -> (length data < fuel)%nat ->
  length (read_loop fuel size data) = chunk_count size (length data).
Proof.
  intros Hsize. revert data.
  induction fuel as [|fuel IH]; intros data Hlen; [lia|].
  cbn [read_loop]. destruct (take size data) as [|b chunk] eqn:Htake.
  - destruct data as [|b data]; [|destruct size; [lia | discriminate]].
    unfold chunk_count. simpl. rewrite Nat.div_small by lia. reflexivity.
  - assert (Hpos : (0 < length data)%nat).
    { destruct data; [rewrite take_nil in Htake; discriminate | simpl; lia]. }
    cbn [length]. rewrite IH by (rewrite length_drop; lia).
    rewrite length_drop. symmetry. apply chunk_count_step; assumption.
Qed.

(** X9: reading a file in the idiom of [get] -- reads of at most [size]
    bytes until one comes back empty -- takes the length divided by [size],
    rounded up, reads that return data; the pieces are full except possibly
    the last, and put together they are the file. *)
Theorem read_loop_covers_file (size : nat) (data : bytes) :
  (0 < size)%nat ->
  length (read_chunks size data) = chunk_count size (length data)
  /\ concat (read_chunks size data) = data
  /\ well_chunked size (read_chunks size data).
Proof.
  intros Hsize. unfold read_chunks. split; [|split].
  - apply read_loop_length; lia.
  - apply read_loop_concat; lia.
  - apply read_loop_well_chunked; lia.
Qed.

Lemma read_loop_covers_file_witness :
  (0 < 3)%nat
  /\ length (read_chunks 3 hello) = chunk_count 3 (length hello)
  /\ concat (read_chunks 3 hello) = hello
  /\ well_chunked 3 (read_chunks 3 hello).
Proof. split; [lia|]. apply (read_loop_covers_file 3 hello). lia. Defined.

Section DownloadFacts.
Context {B : Type} {transfer : Transfer B}.
Variable error_page : Z -> option string -> bytes.

(** X10: [get] asks the backend once, for the object named by the route
    with the request's [If-None-Match] header as etag ([None] when the
    header is missing) and no local file; whatever the answer, [get]
    itself changes neither the disk nor the backend beyond what that call
    did, and leaves [self.auth] and the upload handle alone. *)
Theorem get_asks_backend_once (h : Self) (w : World B) (prefix file_path : string) :
  headers_written (response h) = false ->
  finished (response h) = false ->
  let wanted :=
    {| so_prefix := prefix; so_file_path := file_path;
       so_etag := req_headers (request h) !! "If-None-Match";
       so_local_file := None |} in
  let '(_, b', d') := transfer_retrieve wanted (backend w) (disk w) in
  let '(_, h', w') := FileHandler.get error_page prefix file_path h w in
  disk w' = d' /\ backend w' = b'
  /\ auth h' = auth h /\ temp h' = temp h
  /\ exists ok rest,
       trace w' = trace w ++ EvBackendCall OpRetrieve wanted
                             :: EvBackendDone OpRetrieve ok :: rest
       /\ offline rest /\ handle_free rest.
Proof.
  intros Hw Hf wanted.
  destruct (transfer_retrieve wanted (backend w) (disk w)) as [[settled b'] d'] eqn:Hcall.
  destruct settled as [[receipt|]|what].
  - destruct (local_file receipt) as [path|] eqn:Hlocal.
    + destruct (d' !! path) as [payload|] eqn:Hdisk.
      * rewrite (get_streams error_page h w prefix file_path receipt path payload b' d')
          by assumption.
        simpl. repeat split. eexists _, _. split; [reflexivity|].
        split; (do 2 (constructor; [reflexivity|]); apply Forall_app; split;
                [first [apply writes_offline | apply writes_handle_free]
                |repeat constructor]).
      * unfold FileHandler.get, FileHandler.retrieve_file, FileHandler.on_executor,
          open_rb. run. fold wanted. rewrite Hcall. simpl. rewrite Hlocal. simpl.
        rewrite Hdisk. simpl. tidy. repeat split.
        eexists _, _. split; [reflexivity|]. split; repeat constructor.
    + rewrite (get_not_modified error_page h w prefix file_path receipt b' d')
        by assumption.
      simpl. repeat split. eexists _, _. split; [reflexivity|].
      split; repeat constructor.
  - rewrite (get_missing error_page h w prefix file_path b' d') by assumption.
    simpl. repeat split. eexists _, _. split; [reflexivity|].
    split; repeat constructor.
  - rewrite (get_failed error_page h w prefix file_path what b' d') by assumption.
    simpl. repeat split. eexists _, _. split; [reflexivity|].
    split; constructor.
Qed.
End DownloadFacts.

Lemma get_asks_backend_once_witness :
  headers_written (response (authorized (get_doc1_if "e1"))) = false
  /\ finished (response (authorized (get_doc1_if "e1"))) = false
  /\ let '(_, h', w') :=
       FileHandler.get plain_error_page "test" "doc1"
         (authorized (get_doc1_if "e1")) stocked_world in
     disk w' = ∅ /\ temp h' = None
     /\ exists ok rest,
          trace w' =
            trace stocked_world
            ++ EvBackendCall OpRetrieve
                 {| so_prefix := "test"; so_file_path := "doc1";
                    so_etag := Some "e1"; so_local_file := None |}
               :: EvBackendDone OpRetrieve ok :: rest
          /\ offline rest /\ handle_free rest.
Proof.
  split; [reflexivity|]. split; [reflexivity|].
  pose proof (get_asks_backend_once plain_error_page (authorized (get_doc1_if "e1"))
                stocked_world "test" "doc1" eq_refl eq_refl) as H.
  vm_compute in H. vm_compute.
  destruct H as (Hdisk & _ & _ & Htemp & Hrest).
  split; [exact Hdisk|]. split; [exact Htemp | exact Hrest].
Defined.

(** ** Whole requests without a body *)

Section BodilessFacts.
Context {B : Type} {transfer : Transfer B}.
Variable auth_callback : AuthCallback.
Variable error_page : Z -> option string -> bytes.
Variables (req : Request) (w : World B) (prefix file_path : string).
Variable sent : list HTTPRequest.
Hypothesis Hroute : route_match (path_of_uri (uri req)) = Some (prefix, file_path).
Hypothesis Hgranted :
  auth_callback (req_headers req !! "Authorization") prefix file_path (method req)
    = (Ok true, sent).
Hypothesis Hnobody : body_chunks req = [].
Hypothesis Hcomplete : body_complete req = true.

(** Up to the verb's method: access is granted, nothing else has happened. *)
Lemma bodiless_granted :
  supported (method req) = true ->
  String.eqb (method req) "POST" = false ->
  exists h1,
    handle_request auth_callback error_page req w =
      catching error_page (call_method error_page) h1
        {| disk := disk w; backend := backend w;
           trace := trace w ++ map EvFetch sent |}
    /\ request h1 = req
    /\ path_kwargs h1 !! "prefix" = Some prefix
    /\ path_kwargs h1 !! "file_path" = Some file_path
    /\ response h1 = new_response.
Proof.
  intros Hsup Hother. unfold handle_request.
  destruct (routed_kwargs _ _ _ Hroute) as (kwargs & -> & Hprefix & Hpath).
  rewrite execute_supported by exact Hsup. unfold catching at 1.
  rewrite (prepare_granted auth_callback error_page (new_handler req kwargs) w
             prefix file_path Hprefix Hpath sent) by exact Hgranted.
  simpl. rewrite Hother. simpl. rewrite Hnobody. simpl. unfold ret. simpl.
  rewrite Hcomplete.
  eexists. split; [reflexivity|]. simpl. repeat split; assumption.
Qed.


(** X12: a granted DELETE without body, end to end: the backend's [delete]
    is the only thing that happens to disk and backend, and its outcome
    alone fixes the response -- 204 without header or body when it
    completes, the 500 error page when it fails. *)
Theorem delete_request_end_to_end :
  method req = "DELETE" ->
  let doomed :=
    {| so_prefix := prefix; so_file_path := file_path;
       so_etag := None; so_local_file := None |} in
  let '(settled, b', d') := transfer_delete doomed (backend w) (disk w) in
  exists h' w',
    handle_request auth_callback error_page req w = (Ok tt, h', w')
    /\ disk w' = d' /\ backend w' = b'
    /\ response h' =
         match settled with
         | Failed _ => error_response error_page 500 None
         | Completed _ =>
             {| status_code := 204; reason := None; headers := ∅;
                write_buffer := []; headers_written := true; finished := true |}
         end.
Proof.
  intros Hdel doomed.
  destruct (transfer_delete doomed (backend w) (disk w)) as [[settled b'] d'] eqn:Hcall.
  destruct bodiless_granted as (h1 & -> & Hreq & Hprefix & Hpath & Hresp);
    [rewrite Hdel; reflexivity | rewrite Hdel; reflexivity |].
  unfold catching, call_method, bind, read_self.
  rewrite Hprefix, Hpath, Hreq, Hdel. simpl.
  destruct settled as [[]|what].
  - erewrite (delete_done h1 _ prefix file_path b' d');
      [| exact Hcall | rewrite Hresp; reflexivity].
    eexists _, _. split; [reflexivity|]. simpl. rewrite Hresp.
    repeat split; reflexivity.
  - erewrite (delete_failed h1 _ prefix file_path what b' d'); [| exact Hcall].
    rewrite handled_pending by (rewrite Hresp; reflexivity).
    eexists _, _. split; [reflexivity|]. simpl. repeat split; reflexivity.
Qed.
End BodilessFacts.


Lemma delete_request_end_to_end_witness :
  route_match (path_of_uri (uri delete_doc1)) = Some ("test", "doc1")
  /\ remote_auth net_grants (req_headers delete_doc1 !! "Authorization")
       "test" "doc1" (method delete_doc1)
     = (Ok true,
        [auth_request default_options (Some "Token abc") "test" "doc1" "DELETE"])
  /\ body_chunks delete_doc1 = []
  /\ body_complete delete_doc1 = true
  /\ method delete_doc1 = "DELETE"
  /\ exists h' w',
       handle_request (remote_auth net_grants) plain_error_page delete_doc1
         stocked_world = (Ok tt, h', w')
       /\ objects (backend w') = ∅
       /\ status_code (response h') = 204.
Proof.
  split; [reflexivity|]. split; [reflexivity|]. split; [reflexivity|].
  split; [reflexivity|]. split; [reflexivity|].
  pose proof (delete_request_end_to_end (remote_auth net_grants) plain_error_page
                delete_doc1 stocked_world "test" "doc1"
                [auth_request default_options (Some "Token abc") "test" "doc1" "DELETE"]
                eq_refl eq_refl eq_refl eq_refl eq_refl) as H.
  vm_compute in H. destruct H as (h' & w' & Hrun & _ & Hback & Hresp).
  exists h', w'. vm_compute. split; [exact Hrun|].
  split; [rewrite Hback | rewrite Hresp]; reflexivity.
Defined.
